(** * Grid partitioning and defect viewing of the visual-inspection front end

    Shallow embedding of [src/utils/imageCropper.ts], of the
    [DefectViewer] / [InspectionCard] call path that feeds it, and of the
    [AnalysisResult] record of [src/types].

    Numbers.  A TypeScript [number] is an IEEE-754 binary64 value.  The
    arithmetic of the cropper ([/], [*], [-], [Math.floor], [%], [===]) is
    embedded over the exact rationals [Q]: every operation keeps its
    mathematical meaning and the rounding of the results is left out, so
    [100 / 3] is the rational one third of a hundred, not its nearest
    double.  NaN and the infinities are outside the model.  Equality of numbers is
    [Qeq] ([==]), the counterpart of [===] on finite numbers.

    [Binary64] transcribes [getGridSegmentRegion] once more over the
    primitive binary64 floats, with the rounding the runtime performs, to
    replay concrete calls; the theorems are stated over [Q].

    The second part covers the code around the cropper: the download
    link, the segment selection of [DefectViewer], the queue, the swipes
    and the decisions of the two versions of [InspectionCard], the CHECK
    constraints of the [defect_records] table they write to, and the
    statistics of [Dashboard].  What the page, the browser and the
    database answer is a parameter of each function. *)

From Stdlib Require Import ZArith QArith Qround Lia Lqa List String Bool.
From Stdlib Require PrimFloat.
From Stdlib Require Import Qabs Qminmax.
Import ListNotations.

Local Open Scope Q_scope.

(** ** Numbers *)

Module JsNumber.

Definition number : Type := Q.

(** [Math.floor(q)], as a number again. *)
Definition Math_floor (q : number) : number := inject_Z (Qfloor q).

(** Integer part, rounding towards zero. *)
Definition Qtrunc (q : Q) : Z :=
  if Qle_bool 0 q then Qfloor q else Qceiling q.

(** [n % d]: [n - d * q] where [q] is the quotient [n / d] truncated
    towards zero, so the result takes the sign of the dividend. *)
Definition rem (n d : number) : number := n - d * inject_Z (Qtrunc (n / d)).

(** [a === b] on finite numbers. *)
Definition strict_eq (a b : number) : bool := Qeq_bool a b.

End JsNumber.

Import JsNumber.

(** ** [CropRegion] and [CroppedImage] *)

Record CropRegion : Type := mkCropRegion {
  x : number;
  y : number;
  width : number;
  height : number
}.

Module CroppedImage.
Record t : Type := mk {
  data : string;
  region : CropRegion;
  gridIndex : number
}.
End CroppedImage.

(** Two regions are the same rectangle when their four numbers agree. *)
Definition region_eq (r s : CropRegion) : Prop :=
  x r == x s /\ y r == y s /\ width r == width s /\ height r == height s.

(** The point [(px, py)] lies in the half-open rectangle of [r]. *)
Definition contains (r : CropRegion) (px py : Q) : Prop :=
  (x r <= px /\ px < x r + width r) /\ (y r <= py /\ py < y r + height r).

(** The [CropRegion] bounds of the data model, for an image of the given
    dimensions. *)
Definition in_bounds (imageWidth imageHeight : number) (r : CropRegion) : Prop :=
  0 <= x r /\ 0 <= y r /\
  x r + width r <= imageWidth /\ y r + height r <= imageHeight.

(** ** [ImageCropper] *)

Module ImageCropper.

Definition gridSize : number := 3.

Definition segmentWidth (imageWidth : number) : number := imageWidth / gridSize.
Definition segmentHeight (imageHeight : number) : number := imageHeight / gridSize.

Definition row (gridIndex : number) : number := Math_floor (gridIndex / gridSize).
Definition col (gridIndex : number) : number := rem gridIndex gridSize.

Definition getGridSegmentRegion
    (imageWidth imageHeight gridIndex : number) : CropRegion :=
  let segmentWidth := segmentWidth imageWidth in
  let segmentHeight := segmentHeight imageHeight in
  let row := row gridIndex in
  let col := col gridIndex in
  let x := col * segmentWidth in
  let y := row * segmentHeight in
  let width :=
    if strict_eq col (gridSize - 1) then imageWidth - x else segmentWidth in
  let height :=
    if strict_eq row (gridSize - 1) then imageHeight - y else segmentHeight in
  {| x := x; y := y; width := width; height := height |}.

(** [Array.from({ length: n }, (_, i) => f(i))]. *)
Definition Array_from {A : Type} (length : nat) (f : number -> A) : list A :=
  map (fun i : nat => f (inject_Z (Z.of_nat i))) (seq 0 length).

Definition getAllGridSegments (imageWidth imageHeight : number) : list CropRegion :=
  Array_from 9 (fun i => getGridSegmentRegion imageWidth imageHeight i).

(** What the page around the cropper can do to one crop.  Assigning
    [img.src] ends in the [load] or in the [error] event of the image;
    inside the [load] handler the canvas either has no 2d context, or
    one of its calls throws, or [toDataURL] hands back the PNG data. *)
Inductive CanvasOutcome : Type :=
| NoContext
| Throws (error : string)
| DataURL (croppedData : string).

Record Browser : Type := mkBrowser {
  loads : string -> bool;
  canvas : string -> CropRegion -> CanvasOutcome
}.

(** [cropImageRegion] reports through its two callbacks; exactly one of
    them is called, once, and its value is the value of the call. *)
Definition cropImageRegion {R : Type} (browser : Browser)
    (imageUrl : string) (region : CropRegion)
    (onComplete : string -> R) (onError : string -> R) : R :=
  if loads browser imageUrl then
    match canvas browser imageUrl region with
    | NoContext => onError "Failed to get canvas context"%string
    | DataURL croppedData => onComplete croppedData
    | Throws error => onError ("Crop failed: " ++ error)%string
    end
  else onError "Failed to load image"%string.

(** A settled promise. *)
Inductive Promise (A : Type) : Type :=
| Resolved (value : A)
| Rejected (reason : string).
Arguments Resolved {A} value.
Arguments Rejected {A} reason.

Definition cropAndStoreDefect (browser : Browser) (testImageUrl : string)
    (gridIndex imageWidth imageHeight : number) : Promise CroppedImage.t :=
  let region := getGridSegmentRegion imageWidth imageHeight gridIndex in
  cropImageRegion browser testImageUrl region
    (fun data =>
       Resolved {| CroppedImage.data := data;
                   CroppedImage.region := region;
                   CroppedImage.gridIndex := gridIndex |})
    Rejected.

(** [Promise.all] over settled promises: the values in order, or the
    first rejection. *)
Fixpoint Promise_all {A : Type} (ps : list (Promise A)) : Promise (list A) :=
  match ps with
  | [] => Resolved []
  | Resolved a :: ps' =>
      match Promise_all ps' with
      | Resolved l => Resolved (a :: l)
      | Rejected e => Rejected e
      end
  | Rejected e :: _ => Rejected e
  end.

End ImageCropper.

(** ** The same function on binary64 numbers *)

Module Binary64.

Import PrimFloat.
Local Open Scope float_scope.

(** From [2^52] on every binary64 number is an integer; below it,
    adding and taking away [2^52] rounds to an integer. *)
Definition two52 : float := 4503599627370496.

Definition Math_floor (f : float) : float :=
  if two52 <=? abs f then f
  else
    let r := if 0 <=? f then (f + two52) - two52 else (f - two52) + two52 in
    if f <? r then r - 1 else r.

Definition trunc (f : float) : float :=
  if f <? 0 then - Math_floor (- f) else Math_floor f.

(** [n % d], exact as long as [n / d] rounds to the side of its integer
    part, which it does for the grid indices. *)
Definition rem (n d : float) : float := n - d * trunc (n / d).

Record CropRegion : Type := mkCropRegion {
  x : float;
  y : float;
  width : float;
  height : float
}.

Definition getGridSegmentRegion
    (imageWidth imageHeight gridIndex : float) : CropRegion :=
  let gridSize := 3 in
  let segmentWidth := imageWidth / gridSize in
  let segmentHeight := imageHeight / gridSize in
  let row := Math_floor (gridIndex / gridSize) in
  let col := rem gridIndex gridSize in
  let x := col * segmentWidth in
  let y := row * segmentHeight in
  let width := if col =? gridSize - 1 then imageWidth - x else segmentWidth in
  let height := if row =? gridSize - 1 then imageHeight - y else segmentHeight in
  {| x := x; y := y; width := width; height := height |}.

(** The bounds of [CropRegion], decided with the comparisons of the
    runtime. *)
Definition in_bounds (imageWidth imageHeight : float) (r : CropRegion) : bool :=
  (0 <=? x r) && (0 <=? y r) &&
  (x r + width r <=? imageWidth) && (y r + height r <=? imageHeight).

(** The grid indices 0..8. *)
Definition indices : list float := [0; 1; 2; 3; 4; 5; 6; 7; 8].

End Binary64.

(** ** Thirds of an interval

    [in_third extent c p]: the coordinate [p] lies in the [c]-th of the
    three strips that cut [0, extent) at one third and two thirds of the
    extent, each strip closed on the left and open on the right. *)
Definition in_third (extent : number) (c : Z) (p : Q) : Prop :=
  inject_Z c * (extent / 3) <= p /\
  p < (if (c =? 2)%Z then extent else inject_Z (c + 1) * (extent / 3)).

(** ** The records of [src/types] *)

Module SegmentResult.
Record t : Type := mk {
  segment_index : number;
  ssim_score : number;
  pixel_diff_score : number;
  anomaly_detected : bool;
  confidence : number;
  verdict : string
}.
End SegmentResult.

Module AnalysisResult.
Record t : Type := mk {
  segments : list SegmentResult.t;
  anomaly_count : number;
  overall_defect_score : number;
  average_confidence : number;
  verdict : string;
  defect_locations : list number
}.
End AnalysisResult.

Module GoldenImage.
Record t : Type := mk {
  id : string;
  name : string;
  image_path : string;
  metadata : list (string * string);
  created_at : string;
  updated_at : string
}.
End GoldenImage.

(** [TestImage & { golden_image?: GoldenImage }], the element type of the
    inspection queue. *)
Module TestImage.
Record t : Type := mk {
  id : string;
  golden_image_id : string;
  image_path : string;
  upload_timestamp : string;
  processed : bool;
  overall_defect_score : number;
  detected_defects : option AnalysisResult.t;
  created_at : string;
  golden_image : option GoldenImage.t
}.
End TestImage.

(** The number of elements of an array, as a [number]. *)
Definition size {A : Type} (l : list A) : number :=
  inject_Z (Z.of_nat (List.length l)).

(** ** Aggregator *)

Module Aggregator.

Definition DEFECT : string := "DEFECT".
Definition NORMAL : string := "NORMAL".

Definition anomalous (segments : list SegmentResult.t) : list SegmentResult.t :=
  filter SegmentResult.anomaly_detected segments.

Definition mean (l : list number) : number :=
  fold_right Qplus 0 l / size l.

(** Modelled from the spec: the Aggregator of the defect-detection
    pipeline (section 4.5), which runs in the image-processing scripts
    and the edge function and is not among the sources; only the
    [AnalysisResult] record it fills is.  [anomaly_count] is the count of
    segments with [anomaly_detected], [defect_locations] their indices
    in segment order, the two scores are means over the segments, and
    the verdict is DEFECT iff [anomaly_count > 0], else NORMAL. *)
Definition aggregate (segments : list SegmentResult.t) : AnalysisResult.t :=
  let anomaly_count := size (anomalous segments) in
  {| AnalysisResult.segments := segments;
     AnalysisResult.anomaly_count := anomaly_count;
     AnalysisResult.overall_defect_score :=
       mean (map SegmentResult.pixel_diff_score segments);
     AnalysisResult.average_confidence :=
       mean (map SegmentResult.confidence segments);
     AnalysisResult.verdict :=
       if Qle_bool anomaly_count 0 then NORMAL else DEFECT;
     AnalysisResult.defect_locations :=
       map SegmentResult.segment_index (anomalous segments) |}.

End Aggregator.

(** ** [DefectViewer] *)

Module DefectViewer.

Import ImageCropper.

(** The props; [onClose] is a callback of the parent and plays no part
    in cropping.  An omitted optional prop is [None]. *)
Record DefectViewerProps : Type := mkProps {
  testImageUrl : string;
  masterImageUrl : string;
  analysisResult : AnalysisResult.t;
  imageWidth : option number;
  imageHeight : option number
}.

(** Destructuring defaults [imageWidth = 800], [imageHeight = 600]. *)
Definition default (d : number) (prop : option number) : number :=
  match prop with
  | Some v => v
  | None => d
  end.

Definition imageWidth_ (props : DefectViewerProps) : number :=
  default 800 (imageWidth props).
Definition imageHeight_ (props : DefectViewerProps) : number :=
  default 600 (imageHeight props).

(** The component state set by [loadCroppedImages]. *)
Record State : Type := mkState {
  selectedSegment : option number;
  croppedTestImage : string;
  croppedMasterImage : string;
  loading : bool
}.

Definition cropPromises (browser : Browser) (props : DefectViewerProps)
    (gridIndex : number) : list (Promise CroppedImage.t) :=
  [ cropAndStoreDefect browser (testImageUrl props) gridIndex
      (imageWidth_ props) (imageHeight_ props);
    cropAndStoreDefect browser (masterImageUrl props) gridIndex
      (imageWidth_ props) (imageHeight_ props) ].

(** [loadCroppedImages]: both crops are awaited together; on success
    their data are stored, on failure the error is only logged; either
    way [loading] ends [false]. *)
Definition loadCroppedImages (browser : Browser) (props : DefectViewerProps)
    (st : State) (gridIndex : number) : State :=
  match Promise_all (cropPromises browser props gridIndex) with
  | Resolved [testCrop; masterCrop] =>
      {| selectedSegment := selectedSegment st;
         croppedTestImage := CroppedImage.data testCrop;
         croppedMasterImage := CroppedImage.data masterCrop;
         loading := false |}
  | _ =>
      {| selectedSegment := selectedSegment st;
         croppedTestImage := croppedTestImage st;
         croppedMasterImage := croppedMasterImage st;
         loading := false |}
  end.

End DefectViewer.

(** ** [InspectionCard] *)

Module InspectionCard.

Record State : Type := mkState {
  images : list TestImage.t;
  currentIndex : nat;
  loading : bool;
  showDefectViewer : bool
}.

Definition currentImage (st : State) : option TestImage.t :=
  nth_error (images st) (currentIndex st).

(** The [<DefectViewer ... />] element of the render, when there is one:
    the card is past its loading and empty-queue screens, the viewer was
    asked for, and the current image has an analysis and a golden image.
    Both versions of the component pass the same four props. *)
Definition defectViewer (st : State) : option DefectViewer.DefectViewerProps :=
  if loading st then None
  else match images st with
  | [] => None
  | _ =>
    match currentImage st with
    | None => None
    | Some currentImage =>
      match showDefectViewer st,
            TestImage.detected_defects currentImage,
            TestImage.golden_image currentImage with
      | true, Some analysisResult, Some golden_image =>
          Some {| DefectViewer.testImageUrl := TestImage.image_path currentImage;
                  DefectViewer.masterImageUrl := GoldenImage.image_path golden_image;
                  DefectViewer.analysisResult := analysisResult;
                  DefectViewer.imageWidth := None;
                  DefectViewer.imageHeight := None |}
      | _, _, _ => None
      end
    end
  end.

End InspectionCard.

(** ** Comparisons and array indexing *)

Module Js.

(** [a > b] and [a < b]. *)
Definition gt (a b : number) : bool := negb (Qle_bool a b).
Definition lt (a b : number) : bool := negb (Qle_bool b a).

(** [Math.abs]. *)
Definition Math_abs (a : number) : number := Qabs a.

(** A number names an array element when it is a non-negative integer. *)
Definition is_index (i : number) : bool :=
  Qle_bool 0 i && Qeq_bool i (inject_Z (Qfloor i)).

(** [l[i]]; [None] is [undefined]. *)
Definition array_get {A : Type} (l : list A) (i : number) : option A :=
  if is_index i then nth_error l (Z.to_nat (Qfloor i)) else None.

End Js.

(** ** [ImageCropper.downloadCroppedImage]

    The part of the page the function touches: the children of
    [document.body], in order, as node identities; the identity the next
    [createElement] hands out; and the downloads started by clicks on
    links, as pairs of address and file name. *)

Module Download.

Record Document : Type := mkDocument {
  body : list nat;
  fresh : nat;
  downloads : list (string * string)
}.

(** An [<a>] element held by the script. *)
Record Anchor : Type := mkAnchor {
  node : nat;
  href : string;
  download : string
}.

(** [document.createElement('a')]. *)
Definition createElement_a (d : Document) : Anchor * Document :=
  ({| node := fresh d; href := ""; download := "" |},
   {| body := body d; fresh := S (fresh d); downloads := downloads d |}).

(** [document.body.appendChild(link)]: the node becomes the last child,
    leaving its former place if it had one. *)
Definition appendChild (d : Document) (link : Anchor) : Document :=
  {| body := filter (fun n => negb (n =? node link)%nat) (body d) ++ [node link];
     fresh := fresh d; downloads := downloads d |}.

(** [link.click()] on a link with a [download] attribute. *)
Definition click (d : Document) (link : Anchor) : Document :=
  {| body := body d; fresh := fresh d;
     downloads := downloads d ++ [(href link, download link)] |}.

(** [document.body.removeChild(link)]; [None] when the node is no child
    of the body, where the call throws. *)
Definition removeChild (d : Document) (link : Anchor) : option Document :=
  if existsb (fun n => (n =? node link)%nat) (body d) then
    Some {| body := filter (fun n => negb (n =? node link)%nat) (body d);
            fresh := fresh d; downloads := downloads d |}
  else None.

Definition downloadCroppedImage (d : Document)
    (croppedDataUrl filename : string) : option Document :=
  let (link, d) := createElement_a d in
  let link := {| node := node link; href := croppedDataUrl; download := download link |} in
  let link := {| node := node link; href := href link; download := filename |} in
  let d := appendChild d link in
  let d := click d link in
  removeChild d link.

(** Every child of the body was handed out before. *)
Definition well_formed (d : Document) : Prop :=
  Forall (fun n => (n < fresh d)%nat) (body d).

End Download.

(** ** Choosing a segment in [DefectViewer] *)

Module SegmentSelection.

Import ImageCropper DefectViewer.

(** [selectedSegment !== null ? analysisResult.segments[selectedSegment] : null]. *)
Definition selectedSegmentData (props : DefectViewerProps) (st : State)
    : option SegmentResult.t :=
  match selectedSegment st with
  | Some i => Js.array_get (AnalysisResult.segments (analysisResult props)) i
  | None => None
  end.

(** A click on the button of [segment]: [setSelectedSegment] with its
    [segment_index], and, when that changes the state, the effect on
    [selectedSegment], which loads the crops of that index.  Setting the
    value the state already has changes nothing and runs no effect. *)
Definition selectSegment (browser : Browser) (props : DefectViewerProps)
    (st : State) (segment : SegmentResult.t) : State :=
  let index := SegmentResult.segment_index segment in
  let selected :=
    {| selectedSegment := Some index;
       croppedTestImage := croppedTestImage st;
       croppedMasterImage := croppedMasterImage st;
       loading := loading st |} in
  match selectedSegment st with
  | Some current =>
      if strict_eq current index then st
      else loadCroppedImages browser props selected index
  | None => loadCroppedImages browser props selected index
  end.

End SegmentSelection.

(** ** The [defect_records] table *)

Module DefectRecord.
(** A row, with the columns a client can set; [None] is NULL. *)
Record t : Type := mk {
  test_image_id : string;
  user_decision : string;
  swipe_direction : option string;
  confidence_override : option number;
  notes : option string
}.
End DefectRecord.

Module Database.

Definition one_of (values : list string) (s : string) : bool :=
  existsb (String.eqb s) values.

(** The CHECK constraints of [defect_records]; a constraint on a NULL
    column holds. *)
Definition defect_records_check (r : DefectRecord.t) : bool :=
  one_of ["accept"; "reject"; "review_later"]%string (DefectRecord.user_decision r) &&
  match DefectRecord.swipe_direction r with
  | None => true
  | Some d => one_of ["left"; "right"; "up"]%string d
  end &&
  match DefectRecord.confidence_override r with
  | None => true
  | Some c => Qle_bool 0 c && Qle_bool c 1
  end.

(** [{ data, error }], the answer to a query. *)
Record Response (A : Type) : Type := mkResponse {
  data : option A;
  error : option string
}.
Arguments mkResponse {A} data error.
Arguments data {A} r.
Arguments error {A} r.

(** [supabase.from('defect_records').insert(row)]: the table afterwards
    and the [error] of the answer.  [fault] is a failure that does not
    depend on the row (connection, policy, missing test image); without
    one the row is stored if it passes the CHECK constraints. *)
Definition insert (fault : option string) (table : list DefectRecord.t)
    (row : DefectRecord.t) : list DefectRecord.t * option string :=
  match fault with
  | Some e => (table, Some e)
  | None =>
      if defect_records_check row then (table ++ [row], None)
      else (table, Some "violates check constraint"%string)
  end.

End Database.

(** ** The inspection queue of [InspectionCard] *)

Module Queue.

Import Database.

Record t : Type := mk {
  images : list TestImage.t;
  currentIndex : nat;
  loading : bool;
  feedback : string
}.

Definition currentImage (q : t) : option TestImage.t :=
  nth_error (images q) (currentIndex q).

(** [imageIds.has(id)]. *)
Definition has (imageIds : list string) (id : string) : bool :=
  existsb (String.eqb id) imageIds.

(** [loadPendingImages], given the answers to its two queries: the
    processed test images, newest first, and the [test_image_id] column
    of [defect_records]. *)
Definition loadPendingImages
    (test_images : Response (list TestImage.t))
    (defect_records : Response (list DefectRecord.t)) (q : t) : t :=
  match error test_images with
  | Some _ =>
      {| images := images q; currentIndex := currentIndex q;
         loading := false; feedback := "Failed to load images" |}
  | None =>
      let imageIds :=
        match data defect_records with
        | Some rows => map DefectRecord.test_image_id rows
        | None => []
        end in
      let fetched := match data test_images with Some l => l | None => [] end in
      let unreviewed :=
        filter (fun img => negb (has imageIds (TestImage.id img))) fetched in
      {| images := unreviewed; currentIndex := 0;
         loading := false; feedback := feedback q |}
  end.

(** The current index names an image of the queue. *)
Definition in_range (q : t) : Prop :=
  (currentIndex q < List.length (images q))%nat.

(** The callback a decision leaves with [setTimeout]; it holds the
    [currentIndex] and [images.length] of the render that created it. *)
Record Timer : Type := mkTimer {
  capturedIndex : nat;
  capturedLength : nat
}.

(** [currentIndex < images.length - 1], on the captured values. *)
Definition has_next (timer : Timer) : bool :=
  (Z.of_nat (capturedIndex timer) <? Z.of_nat (capturedLength timer) - 1)%Z.

End Queue.

(** ** [InspectionCard], the version with swipes *)

Module SwipeCard.

Import Queue.

Inductive Direction : Type := left | right | up.
Inductive Decision : Type := accept | reject | review_later.

Definition direction_string (d : Direction) : string :=
  match d with left => "left" | right => "right" | up => "up" end.

Definition decision_string (d : Decision) : string :=
  match d with
  | accept => "accept"
  | reject => "reject"
  | review_later => "review_later"
  end.

Record SwipeState : Type := mkSwipeState {
  startX : number;
  startY : number;
  currentX : number;
  currentY : number;
  isDragging : bool
}.

Definition initialSwipeState : SwipeState :=
  {| startX := 0; startY := 0; currentX := 0; currentY := 0; isDragging := false |}.

Definition handleMouseDown (s : SwipeState) (clientX clientY : number) : SwipeState :=
  {| startX := clientX; startY := clientY;
     currentX := currentX s; currentY := currentY s; isDragging := true |}.

Definition handleMouseMove (s : SwipeState) (clientX clientY : number) : SwipeState :=
  if isDragging s then
    {| startX := startX s; startY := startY s;
       currentX := clientX; currentY := clientY; isDragging := isDragging s |}
  else s.

(** The swipe [handleMouseUp] reads from the two deltas.  The test
    [Math.sqrt(deltaX * deltaX + deltaY * deltaY) > 50] is written on the
    squares, [deltaX * deltaX + deltaY * deltaY > 2500]: the root is
    increasing and the root of 2500 is 50, and it is no rational. *)
Definition swipe (deltaX deltaY : number) : option Direction :=
  if Js.gt (deltaX * deltaX + deltaY * deltaY) 2500 then
    if Js.gt (Js.Math_abs deltaX) (Js.Math_abs deltaY) then
      if Js.gt deltaX 0 then Some right else Some left
    else if Js.lt deltaY (-50) then Some up
    else None
  else None.

(** [handleMouseUp]: the swipe handed to [handleSwipe], if any, and the
    swipe state afterwards. *)
Definition handleMouseUp (s : SwipeState) : option Direction * SwipeState :=
  if isDragging s then
    (swipe (currentX s - startX s) (currentY s - startY s),
     {| startX := startX s; startY := startY s;
        currentX := startX s; currentY := startY s; isDragging := false |})
  else (None, s).

Definition cardOffset (s : SwipeState) : number :=
  if isDragging s then currentX s - startX s else 0.

(** A whole gesture on the card: the button goes down at [press], the
    pointer moves through [moves], the button goes up. *)
Definition drag (s : SwipeState) (press : number * number)
    (moves : list (number * number)) : option Direction * SwipeState :=
  handleMouseUp
    (fold_left (fun s p => handleMouseMove s (fst p) (snd p)) moves
       (handleMouseDown s (fst press) (snd press))).

Definition decision_of (direction : Direction) : Decision :=
  match direction with
  | right => accept
  | left => reject
  | up => review_later
  end.

Definition set_feedback (q : Queue.t) (message : string) : Queue.t :=
  {| images := images q; currentIndex := currentIndex q;
     loading := loading q; feedback := message |}.

Definition set_currentIndex (q : Queue.t) (index : nat) : Queue.t :=
  {| images := images q; currentIndex := index;
     loading := loading q; feedback := feedback q |}.

(** [handleSwipe]: the table and the queue after the insert has been
    answered, and the timer then left behind. *)
Definition handleSwipe (fault : option string) (table : list DefectRecord.t)
    (q : Queue.t) (direction : Direction)
    : list DefectRecord.t * Queue.t * option Timer :=
  match currentImage q with
  | None => (table, q, None)
  | Some currentImage =>
      let decision := decision_of direction in
      let row :=
        {| DefectRecord.test_image_id := TestImage.id currentImage;
           DefectRecord.user_decision := decision_string decision;
           DefectRecord.swipe_direction := Some (direction_string direction);
           DefectRecord.confidence_override := None;
           DefectRecord.notes := None |} in
      match Database.insert fault table row with
      | (table, Some _) => (table, set_feedback q "Error saving decision", None)
      | (table, None) =>
          (table,
           set_feedback q ("Marked as " ++ decision_string decision),
           Some {| capturedIndex := currentIndex q;
                   capturedLength := List.length (images q) |})
      end
  end.

(** The timer of [handleSwipe] firing, 300 ms later, on the queue as it
    is then. *)
Definition timeout (timer : Timer) (q : Queue.t) : Queue.t :=
  if has_next timer then set_currentIndex q (capturedIndex timer + 1)
  else set_feedback q "No more images to review!".

End SwipeCard.

(** ** [InspectionCard], the version with notes and navigation *)

Module ReviewCard.

Import Queue.

Record State : Type := mkState {
  queue : Queue.t;
  notes : string;
  processing : bool
}.

Inductive NavDirection : Type := prev | next.

(** [decision.replace('_', ' ')]: the first underscore (character 95)
    becomes a space (character 32). *)
Fixpoint replace_underscore (s : string) : string :=
  match s with
  | EmptyString => EmptyString
  | String c rest =>
      if Ascii.eqb c (Ascii.ascii_of_nat 95) then String (Ascii.ascii_of_nat 32) rest
      else String c (replace_underscore rest)
  end.

(** [handleDecision]; [trim] stands for [String.prototype.trim]. *)
Definition handleDecision (trim : string -> string) (fault : option string)
    (table : list DefectRecord.t) (st : State) (decision : SwipeCard.Decision)
    : list DefectRecord.t * State * option Timer :=
  match currentImage (queue st) with
  | None => (table, st, None)
  | Some currentImage =>
      if processing st then (table, st, None)
      else
        let trimmed := trim (notes st) in
        let row :=
          {| DefectRecord.test_image_id := TestImage.id currentImage;
             DefectRecord.user_decision := SwipeCard.decision_string decision;
             DefectRecord.swipe_direction := None;
             DefectRecord.confidence_override := None;
             DefectRecord.notes :=
               if String.eqb trimmed "" then None else Some trimmed |} in
        match Database.insert fault table row with
        | (table, Some _) =>
            (table,
             {| queue := SwipeCard.set_feedback (queue st)
                           "Error recording inspection result";
                notes := notes st; processing := false |},
             None)
        | (table, None) =>
            (table,
             {| queue := SwipeCard.set_feedback (queue st)
                           ("Inspection result recorded: " ++
                            replace_underscore (SwipeCard.decision_string decision));
                notes := ""; processing := false |},
             Some {| capturedIndex := currentIndex (queue st);
                     capturedLength := List.length (images (queue st)) |})
        end
  end.

(** [navigateImage]. *)
Definition navigateImage (st : State) (direction : NavDirection) : State :=
  let q := queue st in
  match direction with
  | prev =>
      if (0 <? currentIndex q)%nat then
        {| queue := SwipeCard.set_currentIndex q (currentIndex q - 1);
           notes := ""; processing := processing st |}
      else st
  | next =>
      if (Z.of_nat (currentIndex q) <? Z.of_nat (List.length (images q)) - 1)%Z then
        {| queue := SwipeCard.set_currentIndex q (currentIndex q + 1);
           notes := ""; processing := processing st |}
      else st
  end.

End ReviewCard.

(** ** [Dashboard] *)

Module Dashboard.

Import Database.

Record DashboardStats : Type := mkStats {
  totalReviewed : number;
  accepted : number;
  rejected : number;
  reviewLater : number;
  acceptanceRate : number
}.

Record State : Type := mkState {
  stats : DashboardStats;
  loading : bool;
  chartData : list (string * number)
}.

Definition initialState : State :=
  {| stats := {| totalReviewed := 0; accepted := 0; rejected := 0;
                 reviewLater := 0; acceptanceRate := 0 |};
     loading := true;
     chartData := [] |}.

(** [records.filter((r) => r.user_decision === decision).length]. *)
Definition count (decision : string) (records : list DefectRecord.t) : number :=
  size (filter (fun r => String.eqb (DefectRecord.user_decision r) decision) records).

(** [loadStats], given the answer to its query. *)
Definition loadStats (response : Response (list DefectRecord.t)) (st : State) : State :=
  match error response, data response with
  | None, Some ((_ :: _) as records) =>
      let accepted := count "accept" records in
      let rejected := count "reject" records in
      let reviewLater := count "review_later" records in
      let total := size records in
      {| stats :=
           {| totalReviewed := total;
              accepted := accepted;
              rejected := rejected;
              reviewLater := reviewLater;
              acceptanceRate :=
                if Js.gt total 0 then accepted / total * 100 else 0 |};
         loading := false;
         chartData :=
           [("Accepted"%string, accepted); ("Rejected"%string, rejected);
            ("Review Later"%string, reviewLater)] |}
  | _, _ => {| stats := stats st; loading := false; chartData := chartData st |}
  end.

(** [Math.max(...chartData.map((d) => d.value), 1)]. *)
Definition maxValue (st : State) : number :=
  fold_right Qmax 1 (map snd (chartData st)).

(** The width of a bar, in percent. *)
Definition barWidth (st : State) (item : string * number) : number :=
  snd item / maxValue st * 100.

End Dashboard.

(** * Properties *)

(** ** Arithmetic of the grid index *)

Section IndexArithmetic.

Import ImageCropper.

Lemma Qtrunc_quot (i : Z) : Qtrunc (inject_Z i / gridSize) = Z.quot i 3.
Proof.
  unfold Qtrunc, Qceiling, Qfloor, Qle_bool, gridSize; simpl.
  rewrite !Z.mul_1_r.
  destruct (Z.leb_spec 0 i) as [Hi | Hi].
  - symmetry. apply Z.quot_div_nonneg; lia.
  - rewrite <- (Z.opp_involutive i) at 2.
    rewrite Z.quot_opp_l by lia.
    rewrite Z.quot_div_nonneg by lia.
    reflexivity.
Qed.

Lemma row_int (i : Z) : row (inject_Z i) = inject_Z (i / 3).
Proof.
  unfold row, Math_floor, Qfloor, gridSize; simpl.
  now rewrite Z.mul_1_r.
Qed.

Lemma col_int (i : Z) : col (inject_Z i) == inject_Z (Z.rem i 3).
Proof.
  unfold col, rem. rewrite Qtrunc_quot.
  pose proof (Z.quot_rem' i 3) as E.
  assert (Ei : inject_Z i == inject_Z (3 * Z.quot i 3 + Z.rem i 3))
    by (now rewrite <- E).
  rewrite inject_Z_plus, inject_Z_mult in Ei.
  unfold gridSize. rewrite Ei at 1. ring.
Qed.

Lemma strict_eq_inject (a : number) (z c : Z) :
  a == inject_Z z -> strict_eq a (inject_Z c) = (z =? c)%Z.
Proof.
  intros Ha. unfold strict_eq.
  destruct (Z.eqb_spec z c) as [-> | Hne].
  - now apply Qeq_bool_iff.
  - apply not_true_is_false. intros Hq. apply Qeq_bool_iff in Hq.
    rewrite Ha in Hq. apply Hne. now apply (proj1 (inject_Z_injective _ _)).
Qed.

End IndexArithmetic.

(** ** The region of an integer grid index *)

Section RegionAtIndex.

Import ImageCropper.

Variables imageWidth imageHeight : number.

Lemma x_int (i : Z) :
  x (getGridSegmentRegion imageWidth imageHeight (inject_Z i))
  == inject_Z (Z.rem i 3) * (imageWidth / 3).
Proof.
  cbn [getGridSegmentRegion x]. unfold segmentWidth, gridSize.
  now rewrite col_int.
Qed.

Lemma y_int (i : Z) :
  y (getGridSegmentRegion imageWidth imageHeight (inject_Z i))
  == inject_Z (i / 3) * (imageHeight / 3).
Proof.
  cbn [getGridSegmentRegion y]. unfold segmentHeight, gridSize.
  now rewrite row_int.
Qed.

Lemma width_int (i : Z) :
  width (getGridSegmentRegion imageWidth imageHeight (inject_Z i))
  == if (Z.rem i 3 =? 2)%Z
     then imageWidth - inject_Z (Z.rem i 3) * (imageWidth / 3)
     else imageWidth / 3.
Proof.
  cbn [getGridSegmentRegion width].
  change (gridSize - 1) with (inject_Z 2).
  rewrite (strict_eq_inject _ _ 2 (col_int i)).
  destruct (Z.rem i 3 =? 2)%Z.
  - unfold segmentWidth, gridSize. now rewrite col_int.
  - reflexivity.
Qed.

Lemma height_int (i : Z) :
  height (getGridSegmentRegion imageWidth imageHeight (inject_Z i))
  == if (i / 3 =? 2)%Z
     then imageHeight - inject_Z (i / 3) * (imageHeight / 3)
     else imageHeight / 3.
Proof.
  cbn [getGridSegmentRegion height].
  change (gridSize - 1) with (inject_Z 2).
  rewrite (strict_eq_inject _ (i / 3) 2) by (now rewrite row_int).
  destruct (i / 3 =? 2)%Z.
  - unfold segmentHeight, gridSize. now rewrite row_int.
  - reflexivity.
Qed.

End RegionAtIndex.

(** ** Segment sizes and origins *)

Section Segments.

Import ImageCropper.

Lemma index_cases (i : Z) :
  (0 <= i <= 8)%Z ->
  i = 0%Z \/ i = 1%Z \/ i = 2%Z \/ i = 3%Z \/ i = 4%Z \/
  i = 5%Z \/ i = 6%Z \/ i = 7%Z \/ i = 8%Z.
Proof. lia. Qed.

(** C1, as the claim states it, fails: for a 100 x 100 image the first
    segment is 100/3 wide and high, which is not the integer
    [floor(100/3)]. *)
Lemma C1_floor_size_counterexample :
  ~ (width (getGridSegmentRegion 100 100 0) == Math_floor (100 / 3) /\
     height (getGridSegmentRegion 100 100 0) == Math_floor (100 / 3)).
Proof.
  intros [Hw _]. vm_compute in Hw. discriminate Hw.
Qed.

(** C1 (amended): a segment outside the last column is exactly
    [imageWidth / 3] wide and one outside the last row exactly
    [imageHeight / 3] high, the quotient not being rounded; the last
    column takes [imageWidth - 2 * (imageWidth / 3)] and the last row
    [imageHeight - 2 * (imageHeight / 3)].  When a dimension is an integer
    multiple of 3 the quotient is the [floor] of the claim. *)
Theorem C1_segment_size (imageWidth imageHeight : number) (i : Z) :
  (0 <= i <= 8)%Z ->
  let r := getGridSegmentRegion imageWidth imageHeight (inject_Z i) in
  ((i mod 3 <> 2)%Z -> width r == imageWidth / 3) /\
  ((i / 3 <> 2)%Z -> height r == imageHeight / 3) /\
  ((i mod 3 = 2)%Z -> width r == imageWidth - 2 * (imageWidth / 3)) /\
  ((i / 3 = 2)%Z -> height r == imageHeight - 2 * (imageHeight / 3)) /\
  (forall k : Z, imageWidth == inject_Z (3 * k) ->
     imageWidth / 3 == Math_floor (imageWidth / 3)) /\
  (forall k : Z, imageHeight == inject_Z (3 * k) ->
     imageHeight / 3 == Math_floor (imageHeight / 3)).
Proof.
  intros Hi r. subst r.
  assert (Hrem : Z.rem i 3 = (i mod 3)%Z) by (apply Z.rem_mod_nonneg; lia).
  assert (Hfloor : forall (q : Q) (k : Z),
             q == inject_Z (3 * k) -> q / 3 == Math_floor (q / 3)).
  { intros q k Hq. unfold Math_floor.
    assert (E : q / 3 == inject_Z k).
    { rewrite Hq, inject_Z_mult. change (inject_Z 3) with 3. field. }
    rewrite E at 2. rewrite Qfloor_Z. exact E. }
  repeat split.
  - intros Hc. rewrite width_int, Hrem.
    destruct (Z.eqb_spec (i mod 3) 2); [contradiction | reflexivity].
  - intros Hr. rewrite height_int.
    destruct (Z.eqb_spec (i / 3) 2); [contradiction | reflexivity].
  - intros Hc. rewrite width_int, Hrem, Hc. reflexivity.
  - intros Hr. rewrite height_int, Hr. reflexivity.
  - apply Hfloor.
  - apply Hfloor.
Qed.

Lemma C1_segment_size_witness :
  (0 <= 4 <= 8)%Z /\
  width (getGridSegmentRegion 100 100 (inject_Z 4)) == 100 / 3.
Proof.
  assert (Hi : (0 <= 4 <= 8)%Z) by lia.
  split; [exact Hi |].
  apply (proj1 (C1_segment_size 100 100 4 Hi)). vm_compute. discriminate.
Defined.

(** C4: for a grid index in [0,8] the region is the cell at row
    [floor(index / 3)] and column [index mod 3], both in {0,1,2}, with
    [index = row * 3 + col]; its origin is [col] segment widths to the
    right and [row] segment heights down. *)
Theorem C4_row_major_cell (imageWidth imageHeight : number) (i : Z) :
  (0 <= i <= 8)%Z ->
  let r := getGridSegmentRegion imageWidth imageHeight (inject_Z i) in
  row (inject_Z i) == inject_Z (i / 3) /\
  col (inject_Z i) == inject_Z (i mod 3) /\
  (i = i / 3 * 3 + i mod 3)%Z /\
  (0 <= i / 3 <= 2)%Z /\ (0 <= i mod 3 <= 2)%Z /\
  x r == col (inject_Z i) * segmentWidth imageWidth /\
  y r == row (inject_Z i) * segmentHeight imageHeight.
Proof.
  intros Hi r. subst r.
  assert (Hrem : Z.rem i 3 = (i mod 3)%Z) by (apply Z.rem_mod_nonneg; lia).
  split; [now rewrite row_int |].
  split; [now rewrite col_int, Hrem |].
  split; [pose proof (Z.div_mod i 3); lia |].
  split.
  { assert (0 <= i / 3)%Z by (apply Z.div_pos; lia).
    assert (i / 3 < 3)%Z by (apply Z.div_lt_upper_bound; lia).
    lia. }
  split; [pose proof (Z.mod_pos_bound i 3); lia |].
  split; reflexivity.
Qed.

Lemma C4_row_major_cell_witness :
  (0 <= 7 <= 8)%Z /\
  row (inject_Z 7) == 2 /\ col (inject_Z 7) == 1 /\
  x (getGridSegmentRegion 300 150 (inject_Z 7)) == 100 /\
  y (getGridSegmentRegion 300 150 (inject_Z 7)) == 100.
Proof.
  assert (Hi : (0 <= 7 <= 8)%Z) by lia.
  destruct (C4_row_major_cell 300 150 7 Hi)
    as (Hr & Hc & _ & _ & _ & Hx & Hy).
  split; [exact Hi |].
  split; [exact Hr |].
  split; [exact Hc |].
  split; [rewrite Hx | rewrite Hy]; vm_compute; reflexivity.
Defined.

End Segments.

(** ** Replay on binary64 numbers

    The calls behind the statements on sizes and bounds, run with the
    arithmetic of the runtime on a 100 x 100 image. *)

Section Binary64Replay.

Import PrimFloat.
Local Open Scope float_scope.

(** The first segment is 33.333333333333336 wide, not 33. *)
Example binary64_width_is_not_floored :
  let r := Binary64.getGridSegmentRegion 100 100 0 in
  (33 <? Binary64.width r) && (Binary64.width r <? 34) = true.
Proof. vm_compute. reflexivity. Qed.

Example binary64_regions_in_bounds :
  forallb (fun i => Binary64.in_bounds 100 100
                      (Binary64.getGridSegmentRegion 100 100 i))
          Binary64.indices
  = true.
Proof. vm_compute. reflexivity. Qed.

(** Each column starts where the one before ends, and the last ends
    at the image width. *)
Example binary64_columns_meet :
  let r0 := Binary64.getGridSegmentRegion 100 100 0 in
  let r1 := Binary64.getGridSegmentRegion 100 100 1 in
  let r2 := Binary64.getGridSegmentRegion 100 100 2 in
  (Binary64.x r0 + Binary64.width r0 =? Binary64.x r1) &&
  (Binary64.x r1 + Binary64.width r1 =? Binary64.x r2) &&
  (Binary64.x r2 + Binary64.width r2 =? 100) = true.
Proof. vm_compute. reflexivity. Qed.

Example binary64_index_nine_out_of_bounds :
  Binary64.in_bounds 100 100 (Binary64.getGridSegmentRegion 100 100 9) = false.
Proof. vm_compute. reflexivity. Qed.

End Binary64Replay.

(** ** Bounds *)

(** Division by the grid size, put as a multiplication for [lra]. *)
Ltac thirds := unfold Qdiv in *; change (/ 3) with (1 # 3) in *.

Section Bounds.

Import ImageCropper.

Variables imageWidth imageHeight : number.
Hypothesis width_pos : 0 < imageWidth.
Hypothesis height_pos : 0 < imageHeight.

Lemma in_bounds_inside (i : Z) :
  (0 <= i <= 8)%Z ->
  in_bounds imageWidth imageHeight
    (getGridSegmentRegion imageWidth imageHeight (inject_Z i)).
Proof.
  intros Hi. unfold in_bounds.
  rewrite x_int, y_int, width_int, height_int.
  destruct (index_cases i Hi) as
    [-> | [-> | [-> | [-> | [-> | [-> | [-> | [-> | ->]]]]]]]];
    vm_compute Z.rem; vm_compute Z.div; vm_compute Z.eqb;
    cbv beta iota; unfold inject_Z; thirds; repeat split; lra.
Qed.

Lemma below_grid (i : Z) :
  (i < 0)%Z ->
  y (getGridSegmentRegion imageWidth imageHeight (inject_Z i)) < 0.
Proof.
  intros Hi. rewrite y_int.
  assert (Hk : (i / 3 <= -1)%Z).
  { assert (i / 3 < 0)%Z by (apply Z.div_lt_upper_bound; lia). lia. }
  rewrite Zle_Qle in Hk. change (inject_Z (-1)) with (-1) in Hk.
  thirds. nra.
Qed.

Lemma beyond_grid (i : Z) :
  (9 <= i)%Z ->
  imageHeight <
  y (getGridSegmentRegion imageWidth imageHeight (inject_Z i)) +
  height (getGridSegmentRegion imageWidth imageHeight (inject_Z i)).
Proof.
  intros Hi. rewrite y_int, height_int.
  assert (Hk : (3 <= i / 3)%Z) by (apply Z.div_le_lower_bound; lia).
  destruct (Z.eqb_spec (i / 3) 2) as [E | _]; [lia |].
  rewrite Zle_Qle in Hk. change (inject_Z 3) with 3 in Hk.
  thirds. nra.
Qed.

End Bounds.

(** C3: for positive image dimensions and a grid index in [0,8] the
    region lies inside the image: [0 <= x], [0 <= y],
    [x + width <= imageWidth] and [y + height <= imageHeight]. *)
Theorem C3_region_in_bounds (imageWidth imageHeight : number) (i : Z) :
  0 < imageWidth -> 0 < imageHeight -> (0 <= i <= 8)%Z ->
  let r := ImageCropper.getGridSegmentRegion imageWidth imageHeight (inject_Z i) in
  0 <= x r /\ 0 <= y r /\
  x r + width r <= imageWidth /\ y r + height r <= imageHeight.
Proof.
  intros HW HH Hi r. exact (in_bounds_inside imageWidth imageHeight HW HH i Hi).
Qed.

Lemma C3_region_in_bounds_witness :
  let r := ImageCropper.getGridSegmentRegion 800 600 (inject_Z 8) in
  0 <= x r /\ 0 <= y r /\ x r + width r <= 800 /\ y r + height r <= 600.
Proof.
  apply (C3_region_in_bounds 800 600 8); [reflexivity | reflexivity | lia].
Defined.

(** C8: the function checks nothing and returns a region for every
    integer grid index; for positive dimensions and an index of 9 or more
    that region ends below the image, [y + height > imageHeight], and the
    bounds of [CropRegion] hold exactly for the indices 0..8. *)
Theorem C8_bounds_need_valid_index (imageWidth imageHeight : number) (i : Z) :
  0 < imageWidth -> 0 < imageHeight ->
  ((9 <= i)%Z ->
   exists r, ImageCropper.getGridSegmentRegion imageWidth imageHeight (inject_Z i) = r /\
             ~ y r + height r <= imageHeight) /\
  (in_bounds imageWidth imageHeight
     (ImageCropper.getGridSegmentRegion imageWidth imageHeight (inject_Z i))
   <-> (0 <= i <= 8)%Z).
Proof.
  intros HW HH. split.
  - intros Hi. eexists. split; [reflexivity |].
    apply Qlt_not_le. now apply beyond_grid.
  - split.
    + intros (_ & Hy & _ & Hh).
      destruct (Z.lt_ge_cases i 0) as [Hneg | Hnn].
      * pose proof (below_grid imageWidth imageHeight HH i Hneg). lra.
      * destruct (Z.lt_ge_cases i 9) as [Hlt | Hge]; [lia |].
        pose proof (beyond_grid imageWidth imageHeight HH i Hge). lra.
    + now apply in_bounds_inside.
Qed.

Lemma C8_bounds_need_valid_index_witness :
  ~ y (ImageCropper.getGridSegmentRegion 800 600 (inject_Z 9)) +
    height (ImageCropper.getGridSegmentRegion 800 600 (inject_Z 9)) <= 600.
Proof.
  assert (HW : 0 < 800) by reflexivity.
  assert (HH : 0 < 600) by reflexivity.
  assert (Hi : (9 <= 9)%Z) by lia.
  destruct (proj1 (C8_bounds_need_valid_index 800 600 9 HW HH) Hi) as (r & <- & Hr).
  exact Hr.
Defined.

(** ** The nine segments *)

Section AllSegments.

Import ImageCropper.

Variables imageWidth imageHeight : number.

Lemma nth_getAllGridSegments (i : nat) :
  (i < 9)%nat ->
  nth_error (getAllGridSegments imageWidth imageHeight) i
  = Some (getGridSegmentRegion imageWidth imageHeight (inject_Z (Z.of_nat i))).
Proof.
  intros Hi. unfold getAllGridSegments, Array_from.
  rewrite nth_error_map, nth_error_seq.
  destruct (Nat.ltb_spec i 9) as [_ | Hge]; [reflexivity | lia].
Qed.

Lemma nth_getAllGridSegments_inv (i : nat) (r : CropRegion) :
  nth_error (getAllGridSegments imageWidth imageHeight) i = Some r ->
  (i < 9)%nat /\
  r = getGridSegmentRegion imageWidth imageHeight (inject_Z (Z.of_nat i)).
Proof.
  intros Hr.
  assert (Hi : (i < 9)%nat).
  { assert (Hl : (i < List.length (getAllGridSegments imageWidth imageHeight))%nat)
      by (apply nth_error_Some; congruence).
    exact Hl. }
  split; [exact Hi |].
  rewrite nth_getAllGridSegments in Hr by exact Hi. congruence.
Qed.

End AllSegments.

(** C6: [getAllGridSegments] returns exactly nine regions, in order, the
    i-th being [getGridSegmentRegion(width, height, i)] for i = 0..8. *)
Theorem C6_all_segments_are_the_nine_regions (imageWidth imageHeight : number) :
  let f := ImageCropper.getGridSegmentRegion imageWidth imageHeight in
  ImageCropper.getAllGridSegments imageWidth imageHeight
  = [f 0; f 1; f 2; f 3; f 4; f 5; f 6; f 7; f 8] /\
  List.length (ImageCropper.getAllGridSegments imageWidth imageHeight) = 9%nat.
Proof.
  split; reflexivity.
Qed.

(** ** Tiling *)

Section Tiling.

Import ImageCropper.

Lemma third_cases (c : Z) :
  (0 <= c <= 2)%Z -> c = 0%Z \/ c = 1%Z \/ c = 2%Z.
Proof. lia. Qed.

Ltac third_arith :=
  unfold in_third in *; cbn [Z.eqb Z.add Pos.eqb Pos.add Pos.succ] in *;
  unfold inject_Z in *; thirds.

Lemma in_third_inside (extent : number) (c : Z) (p : Q) :
  (0 <= c <= 2)%Z -> in_third extent c p -> 0 <= p /\ p < extent.
Proof.
  intros Hc Hp.
  destruct (third_cases c Hc) as [-> | [-> | ->]]; third_arith; lra.
Qed.

Lemma in_third_cover (extent : number) (p : Q) :
  0 <= p -> p < extent -> exists c, (0 <= c <= 2)%Z /\ in_third extent c p.
Proof.
  intros H0 He.
  destruct (Qlt_le_dec p (extent / 3)) as [H1 | H1].
  - exists 0%Z. split; [lia |]. third_arith. lra.
  - destruct (Qlt_le_dec p (2 * (extent / 3))) as [H2 | H2].
    + exists 1%Z. split; [lia |]. third_arith. lra.
    + exists 2%Z. split; [lia |]. third_arith. lra.
Qed.

Lemma in_third_unique (extent : number) (c c' : Z) (p : Q) :
  (0 <= c <= 2)%Z -> (0 <= c' <= 2)%Z ->
  in_third extent c p -> in_third extent c' p -> c = c'.
Proof.
  intros Hc Hc' Hp Hp'.
  destruct (third_cases c Hc) as [-> | [-> | ->]];
    destruct (third_cases c' Hc') as [-> | [-> | ->]];
    try reflexivity; exfalso; third_arith; lra.
Qed.

Lemma contains_int (imageWidth imageHeight : number) (i : Z) (px py : Q) :
  contains (getGridSegmentRegion imageWidth imageHeight (inject_Z i)) px py
  <-> in_third imageWidth (Z.rem i 3) px /\ in_third imageHeight (i / 3) py.
Proof.
  unfold contains, in_third.
  rewrite x_int, y_int, width_int, height_int, !inject_Z_plus.
  change (inject_Z 1) with 1.
  destruct (Z.rem i 3 =? 2)%Z; destruct (i / 3 =? 2)%Z; thirds; split; lra.
Qed.

(** Row and column of a position in the array. *)
Lemma position_row_col (i : nat) :
  (i < 9)%nat ->
  (0 <= Z.rem (Z.of_nat i) 3 <= 2)%Z /\ (0 <= Z.of_nat i / 3 <= 2)%Z /\
  Z.of_nat i = (3 * (Z.of_nat i / 3) + Z.rem (Z.of_nat i) 3)%Z.
Proof.
  intros Hi.
  rewrite Z.rem_mod_nonneg by lia.
  pose proof (Z.mod_pos_bound (Z.of_nat i) 3).
  pose proof (Z.div_mod (Z.of_nat i) 3).
  assert (0 <= Z.of_nat i / 3)%Z by (apply Z.div_pos; lia).
  assert (Z.of_nat i / 3 < 3)%Z by (apply Z.div_lt_upper_bound; lia).
  lia.
Qed.

Lemma row_col_position (k c : Z) :
  (0 <= k <= 2)%Z -> (0 <= c <= 2)%Z ->
  Z.rem (3 * k + c) 3 = c /\ ((3 * k + c) / 3 = k)%Z.
Proof.
  intros Hk Hc.
  destruct (third_cases k Hk) as [-> | [-> | ->]];
    destruct (third_cases c Hc) as [-> | [-> | ->]]; split; reflexivity.
Qed.

End Tiling.

(** C2: the nine regions of [getAllGridSegments] tile the rectangle
    [0, width) x [0, height): a point lies in the rectangle exactly when
    some region holds it, no point lies in two regions, and the region at
    position [3 * row + col] is the cell of that row and column. *)
Theorem C2_segments_tile_the_image (imageWidth imageHeight : number) :
  let segments := ImageCropper.getAllGridSegments imageWidth imageHeight in
  (forall px py : Q,
     (0 <= px /\ px < imageWidth) /\ (0 <= py /\ py < imageHeight) <->
     exists (i : nat) (r : CropRegion),
       nth_error segments i = Some r /\ contains r px py) /\
  (forall (i j : nat) (r s : CropRegion) (px py : Q),
     nth_error segments i = Some r -> nth_error segments j = Some s ->
     contains r px py -> contains s px py -> i = j) /\
  (forall row col : nat, (row < 3)%nat -> (col < 3)%nat ->
     exists r : CropRegion,
       nth_error segments (3 * row + col) = Some r /\
       x r == inject_Z (Z.of_nat col) * (imageWidth / 3) /\
       y r == inject_Z (Z.of_nat row) * (imageHeight / 3)).
Proof.
  intros segments. subst segments. split; [| split].
  - intros px py. split.
    + intros [[Hx0 Hx1] [Hy0 Hy1]].
      destruct (in_third_cover imageWidth px Hx0 Hx1) as (c & Hc & Hpx).
      destruct (in_third_cover imageHeight py Hy0 Hy1) as (k & Hk & Hpy).
      destruct (row_col_position k c Hk Hc) as [Erem Ediv].
      exists (Z.to_nat (3 * k + c)). eexists. split.
      * apply nth_getAllGridSegments. lia.
      * rewrite Z2Nat.id by lia. apply contains_int.
        rewrite Erem, Ediv. split; assumption.
    + intros (i & r & Hr & Hin).
      apply nth_getAllGridSegments_inv in Hr. destruct Hr as [Hi ->].
      apply contains_int in Hin. destruct Hin as [Hpx Hpy].
      destruct (position_row_col i Hi) as (Hc & Hk & _).
      split.
      * apply (in_third_inside imageWidth _ px Hc Hpx).
      * apply (in_third_inside imageHeight _ py Hk Hpy).
  - intros i j r s px py Hr Hs Hinr Hins.
    apply nth_getAllGridSegments_inv in Hr. destruct Hr as [Hi ->].
    apply nth_getAllGridSegments_inv in Hs. destruct Hs as [Hj ->].
    apply contains_int in Hinr. destruct Hinr as [Hcx Hcy].
    apply contains_int in Hins. destruct Hins as [Hdx Hdy].
    destruct (position_row_col i Hi) as (Hci & Hki & Ei).
    destruct (position_row_col j Hj) as (Hcj & Hkj & Ej).
    pose proof (in_third_unique imageWidth _ _ px Hci Hcj Hcx Hdx) as Ec.
    pose proof (in_third_unique imageHeight _ _ py Hki Hkj Hcy Hdy) as Ek.
    lia.
  - intros row col Hrow Hcol. eexists. split.
    + apply nth_getAllGridSegments. lia.
    + assert (Hk : (0 <= Z.of_nat row <= 2)%Z) by lia.
      assert (Hc : (0 <= Z.of_nat col <= 2)%Z) by lia.
      destruct (row_col_position _ _ Hk Hc) as [Erem Ediv].
      replace (Z.of_nat (3 * row + col))
        with (3 * Z.of_nat row + Z.of_nat col)%Z by lia.
      rewrite x_int, y_int, Erem, Ediv. split; reflexivity.
Qed.

Lemma C2_segments_tile_the_image_witness :
  exists (i : nat) (r : CropRegion),
    nth_error (ImageCropper.getAllGridSegments 300 300) i = Some r /\
    contains r 150 250.
Proof.
  apply (proj1 (C2_segments_tile_the_image 300 300)).
  repeat split; (reflexivity || discriminate).
Defined.

(** ** Equal numbers, equal regions

    The regions do not depend on how a rational number is written:
    arguments equal as numbers give regions equal as rectangles.  That
    the two functions read nothing but their arguments and write nothing
    is how they are embedded here, as functions; it is no theorem of
    this development. *)

Section Determinism.

Import ImageCropper.

Lemma Qtrunc_comp (q q' : Q) : q == q' -> Qtrunc q = Qtrunc q'.
Proof.
  intros Hq. unfold Qtrunc.
  rewrite (Qfloor_comp q q' Hq), (Qceiling_comp q q' Hq).
  now rewrite Hq.
Qed.

Lemma row_comp (i i' : number) : i == i' -> row i == row i'.
Proof.
  intros Hi. unfold row, Math_floor. now rewrite Hi.
Qed.

Lemma col_comp (i i' : number) : i == i' -> col i == col i'.
Proof.
  intros Hi. unfold col, rem.
  rewrite (Qtrunc_comp (i / gridSize) (i' / gridSize)) by (now rewrite Hi).
  now rewrite Hi.
Qed.

Lemma strict_eq_comp (a a' b : number) :
  a == a' -> strict_eq a b = strict_eq a' b.
Proof.
  intros Ha. unfold strict_eq. now rewrite Ha.
Qed.

Lemma getGridSegmentRegion_comp (w h i w' h' i' : number) :
  w == w' -> h == h' -> i == i' ->
  region_eq (getGridSegmentRegion w h i) (getGridSegmentRegion w' h' i').
Proof.
  intros Hw Hh Hi. unfold region_eq.
  cbn [getGridSegmentRegion x y width height].
  pose proof (row_comp i i' Hi) as Hrow.
  pose proof (col_comp i i' Hi) as Hcol.
  rewrite <- (strict_eq_comp _ _ (gridSize - 1) Hcol).
  rewrite <- (strict_eq_comp _ _ (gridSize - 1) Hrow).
  unfold segmentWidth, segmentHeight.
  destruct (strict_eq (col i) (gridSize - 1));
    destruct (strict_eq (row i) (gridSize - 1));
    rewrite Hw, Hh, Hrow, Hcol; repeat split; reflexivity.
Qed.

End Determinism.

(** ** Cropping one segment *)

Section Cropping.

Import ImageCropper.

Variable browser : Browser.

(** The promise resolves exactly when the image loads and the canvas
    yields its data. *)
Lemma cropAndStoreDefect_resolves
    (testImageUrl : string) (gridIndex imageWidth imageHeight : number)
    (c : CroppedImage.t) :
  cropAndStoreDefect browser testImageUrl gridIndex imageWidth imageHeight
  = Resolved c
  <-> loads browser testImageUrl = true /\
      canvas browser testImageUrl
        (getGridSegmentRegion imageWidth imageHeight gridIndex)
      = DataURL (CroppedImage.data c) /\
      CroppedImage.region c
      = getGridSegmentRegion imageWidth imageHeight gridIndex /\
      CroppedImage.gridIndex c = gridIndex.
Proof.
  unfold cropAndStoreDefect, cropImageRegion. split.
  - destruct (loads browser testImageUrl); [| discriminate].
    destruct (canvas browser testImageUrl _); try discriminate.
    intros E. injection E as <-. repeat split.
  - intros (-> & -> & Hr & Hg). destruct c as [d r g]. simpl in *.
    now subst.
Qed.

End Cropping.

(** C9: whenever [cropAndStoreDefect] resolves, the [CroppedImage] holds
    the region [getGridSegmentRegion(imageWidth, imageHeight, gridIndex)]
    and the [gridIndex] it was called with. *)
Theorem C9_resolved_crop_keeps_region_and_index
    (browser : ImageCropper.Browser) (testImageUrl : string)
    (gridIndex imageWidth imageHeight : number) (c : CroppedImage.t) :
  ImageCropper.cropAndStoreDefect browser testImageUrl gridIndex imageWidth imageHeight
  = ImageCropper.Resolved c ->
  CroppedImage.region c
  = ImageCropper.getGridSegmentRegion imageWidth imageHeight gridIndex /\
  CroppedImage.gridIndex c = gridIndex.
Proof.
  intros Hc. apply cropAndStoreDefect_resolves in Hc.
  destruct Hc as (_ & _ & Hr & Hg). split; assumption.
Qed.

Lemma C9_resolved_crop_keeps_region_and_index_witness :
  let browser :=
    {| ImageCropper.loads := fun _ => true;
       ImageCropper.canvas := fun _ _ => ImageCropper.DataURL "data:image/png;base64,iVBOR" |} in
  exists c : CroppedImage.t,
    ImageCropper.cropAndStoreDefect browser "test/17.png" 4 800 600
    = ImageCropper.Resolved c /\
    CroppedImage.region c = ImageCropper.getGridSegmentRegion 800 600 4 /\
    CroppedImage.gridIndex c = 4.
Proof.
  intros browser. eexists. split; [reflexivity |].
  apply (C9_resolved_crop_keeps_region_and_index browser "test/17.png" 4 800 600).
  reflexivity.
Defined.

(** ** The viewer opened from the inspection card *)

Section Viewer.

Import ImageCropper.



End Viewer.



(** ** Aggregation *)

(** C5: in every [AnalysisResult] the aggregator produces,
    [anomaly_count] is the size of [defect_locations] and the number of
    segments with [anomaly_detected], and the verdict is DEFECT exactly
    when [anomaly_count > 0]. *)
Theorem C5_aggregation_invariant (segments : list SegmentResult.t) :
  let result := Aggregator.aggregate segments in
  AnalysisResult.anomaly_count result == size (AnalysisResult.defect_locations result) /\
  AnalysisResult.anomaly_count result
  == size (filter SegmentResult.anomaly_detected (AnalysisResult.segments result)) /\
  (AnalysisResult.verdict result = Aggregator.DEFECT
   <-> 0 < AnalysisResult.anomaly_count result).
Proof.
  intros result. subst result. cbn [Aggregator.aggregate
    AnalysisResult.anomaly_count AnalysisResult.defect_locations
    AnalysisResult.segments AnalysisResult.verdict].
  split; [| split].
  - unfold size. now rewrite length_map.
  - reflexivity.
  - destruct (Qle_bool (size (Aggregator.anomalous segments)) 0) eqn:E.
    + apply Qle_bool_iff in E. split; [discriminate |].
      intros Hpos. exfalso. lra.
    + split; [| reflexivity]. intros _.
      apply Qnot_le_lt. intros Hle. apply Qle_bool_iff in Hle. congruence.
Qed.

(** The end-to-end scenario of the spec: nine segments of which only the
    first is anomalous. *)
Example aggregate_one_defect :
  let normal i := SegmentResult.mk i 1 0 false 1 Aggregator.NORMAL in
  let result :=
    Aggregator.aggregate
      (SegmentResult.mk 0 (1 # 2) (100 # 1) true 1 Aggregator.DEFECT
       :: map normal [1; 2; 3; 4; 5; 6; 7; 8]) in
  AnalysisResult.anomaly_count result == 1 /\
  AnalysisResult.defect_locations result = [0] /\
  AnalysisResult.verdict result = Aggregator.DEFECT.
Proof.
  repeat split.
Qed.

(** * Further properties of the code *)

(** ** Failing crops *)

(** [cropAndStoreDefect] rejects in three cases only, each with its own
    message: the image does not load; the image loads but the canvas has
    no 2d context; the image loads and a canvas call throws on the grid
    region, the thrown error being appended to the message. *)
Theorem cropAndStoreDefect_rejects
    (browser : ImageCropper.Browser) (testImageUrl : string)
    (gridIndex imageWidth imageHeight : number) (reason : string) :
  ImageCropper.cropAndStoreDefect browser testImageUrl gridIndex imageWidth imageHeight
  = ImageCropper.Rejected reason
  <->
  (ImageCropper.loads browser testImageUrl = false /\
   reason = "Failed to load image"%string) \/
  (ImageCropper.loads browser testImageUrl = true /\
   ImageCropper.canvas browser testImageUrl
     (ImageCropper.getGridSegmentRegion imageWidth imageHeight gridIndex)
   = ImageCropper.NoContext /\
   reason = "Failed to get canvas context"%string) \/
  (ImageCropper.loads browser testImageUrl = true /\
   exists error : string,
     ImageCropper.canvas browser testImageUrl
       (ImageCropper.getGridSegmentRegion imageWidth imageHeight gridIndex)
     = ImageCropper.Throws error /\
     reason = ("Crop failed: " ++ error)%string).
Proof.
  unfold ImageCropper.cropAndStoreDefect, ImageCropper.cropImageRegion.
  destruct (ImageCropper.loads browser testImageUrl).
  - destruct (ImageCropper.canvas browser testImageUrl _) as [| error | croppedData].
    + split.
      * intros E. injection E as <-. right. left. repeat split.
      * intros [[H _] | [(_ & _ & ->) | (_ & error & H & _)]];
          [discriminate H | reflexivity | discriminate H].
    + split.
      * intros E. injection E as <-. right. right. split; [reflexivity |].
        exists error. split; reflexivity.
      * intros [[H _] | [(_ & H & _) | (_ & error' & H & ->)]];
          [discriminate H | discriminate H |].
        injection H as ->. reflexivity.
    + split.
      * intros E. discriminate E.
      * intros [[H _] | [(_ & H & _) | (_ & error & H & _)]]; discriminate H.
  - split.
    + intros E. injection E as <-. left. split; reflexivity.
    + intros [[_ ->] | [(H & _) | (H & _)]];
        [reflexivity | discriminate H | discriminate H].
Qed.

(** ** Downloading a crop *)

Section DownloadLink.

Import Download.

Lemma filter_other_nodes (f : nat) (l : list nat) :
  Forall (fun n => (n < f)%nat) l ->
  filter (fun n => negb (n =? f)%nat) l = l.
Proof.
  induction 1 as [| n l Hn _ IH]; cbn [filter].
  - reflexivity.
  - destruct (Nat.eqb_spec n f) as [E | _]; [lia |].
    cbn [negb]. now rewrite IH.
Qed.

Lemma filter_last_node (f : nat) (l : list nat) :
  Forall (fun n => (n < f)%nat) l ->
  filter (fun n => negb (n =? f)%nat) (l ++ [f]) = l.
Proof.
  intros Hl. rewrite filter_app, (filter_other_nodes f l Hl).
  cbn [filter]. rewrite Nat.eqb_refl. cbn [negb]. apply app_nil_r.
Qed.

End DownloadLink.

(** [downloadCroppedImage] never throws on a well-formed page, starts
    exactly one download, of the given address under the given file name,
    and leaves the children of the body as it found them: the link it
    appends is the one it removes. *)
Theorem downloadCroppedImage_restores_the_page
    (d : Download.Document) (croppedDataUrl filename : string) :
  Download.well_formed d ->
  Download.downloadCroppedImage d croppedDataUrl filename
  = Some {| Download.body := Download.body d;
            Download.fresh := S (Download.fresh d);
            Download.downloads :=
              Download.downloads d ++ [(croppedDataUrl, filename)] |}.
Proof.
  intros Hd. unfold Download.well_formed in Hd.
  unfold Download.downloadCroppedImage, Download.createElement_a,
    Download.removeChild, Download.click, Download.appendChild.
  cbn [Download.node Download.href Download.download Download.body
       Download.fresh Download.downloads].
  rewrite (filter_other_nodes _ _ Hd).
  rewrite existsb_app. cbn [existsb]. rewrite Nat.eqb_refl, orb_true_r.
  now rewrite (filter_last_node _ _ Hd).
Qed.

Lemma downloadCroppedImage_restores_the_page_witness :
  Download.downloadCroppedImage
    {| Download.body := [0; 1; 2]%nat; Download.fresh := 3%nat;
       Download.downloads := [] |}
    "data:image/png;base64,iVBOR" "test-region-5.png"
  = Some {| Download.body := [0; 1; 2]%nat; Download.fresh := 4%nat;
            Download.downloads :=
              [("data:image/png;base64,iVBOR"%string, "test-region-5.png"%string)] |}.
Proof.
  apply (downloadCroppedImage_restores_the_page
           {| Download.body := [0; 1; 2]%nat; Download.fresh := 3%nat;
              Download.downloads := [] |}).
  unfold Download.well_formed. cbn [Download.body Download.fresh].
  repeat constructor.
Defined.

(** ** Loading the two crops of a segment *)

Section CropPair.

Import ImageCropper DefectViewer.

Variables (browser : Browser) (props : DefectViewerProps).
Variables (st : State) (gridIndex : number).

Let test : Promise CroppedImage.t :=
  cropAndStoreDefect browser (testImageUrl props) gridIndex
    (imageWidth_ props) (imageHeight_ props).
Let master : Promise CroppedImage.t :=
  cropAndStoreDefect browser (masterImageUrl props) gridIndex
    (imageWidth_ props) (imageHeight_ props).

Lemma loadCroppedImages_cases :
  loadCroppedImages browser props st gridIndex
  = match test, master with
    | Resolved t, Resolved m =>
        {| selectedSegment := selectedSegment st;
           croppedTestImage := CroppedImage.data t;
           croppedMasterImage := CroppedImage.data m;
           loading := false |}
    | _, _ =>
        {| selectedSegment := selectedSegment st;
           croppedTestImage := croppedTestImage st;
           croppedMasterImage := croppedMasterImage st;
           loading := false |}
    end.
Proof.
  unfold loadCroppedImages, cropPromises. fold test master.
  cbn [Promise_all].
  destruct test as [t | e]; [| reflexivity].
  destruct master as [m | e]; reflexivity.
Qed.

End CropPair.

(** [loadCroppedImages] replaces the two crops together or not at all:
    when both promises resolve the state holds their data; when either is
    rejected both crops of the state stay what they were.  In every case
    the selection is kept and [loading] ends [false]. *)
Theorem loadCroppedImages_all_or_nothing
    (browser : ImageCropper.Browser) (props : DefectViewer.DefectViewerProps)
    (st : DefectViewer.State) (gridIndex : number) :
  let test :=
    ImageCropper.cropAndStoreDefect browser (DefectViewer.testImageUrl props)
      gridIndex (DefectViewer.imageWidth_ props) (DefectViewer.imageHeight_ props) in
  let master :=
    ImageCropper.cropAndStoreDefect browser (DefectViewer.masterImageUrl props)
      gridIndex (DefectViewer.imageWidth_ props) (DefectViewer.imageHeight_ props) in
  let st' := DefectViewer.loadCroppedImages browser props st gridIndex in
  DefectViewer.loading st' = false /\
  DefectViewer.selectedSegment st' = DefectViewer.selectedSegment st /\
  (forall t m : CroppedImage.t,
     test = ImageCropper.Resolved t -> master = ImageCropper.Resolved m ->
     DefectViewer.croppedTestImage st' = CroppedImage.data t /\
     DefectViewer.croppedMasterImage st' = CroppedImage.data m) /\
  ((exists e, test = ImageCropper.Rejected e) \/
   (exists e, master = ImageCropper.Rejected e) ->
   DefectViewer.croppedTestImage st' = DefectViewer.croppedTestImage st /\
   DefectViewer.croppedMasterImage st' = DefectViewer.croppedMasterImage st).
Proof.
  intros test master st'. subst st'.
  rewrite loadCroppedImages_cases. fold test master.
  destruct test as [t | e]; destruct master as [m | e'];
    cbn [DefectViewer.loading DefectViewer.selectedSegment
         DefectViewer.croppedTestImage DefectViewer.croppedMasterImage];
    (split; [reflexivity |]); (split; [reflexivity |]); split.
  all: try (intros t0 m0 Ht Hm; try discriminate Ht; try discriminate Hm).
  all: try (intros [[e0 He] | [e0 He]]; try discriminate He).
  all: try (split; reflexivity).
  injection Ht as <-. injection Hm as <-. split; reflexivity.
Qed.

Lemma loadCroppedImages_all_or_nothing_witness :
  let browser :=
    {| ImageCropper.loads := fun url => String.eqb url "test/17.png";
       ImageCropper.canvas := fun _ _ => ImageCropper.DataURL "data:image/png;base64,NEW" |} in
  let props :=
    {| DefectViewer.testImageUrl := "test/17.png";
       DefectViewer.masterImageUrl := "golden/gone.png";
       DefectViewer.analysisResult := AnalysisResult.mk [] 0 0 1 "NORMAL" [];
       DefectViewer.imageWidth := None; DefectViewer.imageHeight := None |} in
  let st :=
    {| DefectViewer.selectedSegment := Some 4;
       DefectViewer.croppedTestImage := "data:image/png;base64,OLDTEST";
       DefectViewer.croppedMasterImage := "data:image/png;base64,OLDMASTER";
       DefectViewer.loading := true |} in
  let st' := DefectViewer.loadCroppedImages browser props st 4 in
  DefectViewer.croppedTestImage st' = "data:image/png;base64,OLDTEST"%string /\
  DefectViewer.croppedMasterImage st' = "data:image/png;base64,OLDMASTER"%string.
Proof.
  intros browser props st st'.
  apply (proj2 (proj2 (proj2 (loadCroppedImages_all_or_nothing browser props st 4)))).
  right. exists "Failed to load image"%string. reflexivity.
Defined.

(** ** Choosing a segment *)

Section Selection.

Import ImageCropper DefectViewer SegmentSelection.

Lemma array_get_position {A : Type} (l : list A) (i : number) (k : nat) :
  i == inject_Z (Z.of_nat k) -> Js.array_get l i = nth_error l k.
Proof.
  intros Hi. unfold Js.array_get, Js.is_index.
  rewrite (Qfloor_comp _ _ Hi), Qfloor_Z, Nat2Z.id.
  assert (H0 : Qle_bool 0 i = true).
  { apply Qle_bool_iff. rewrite Hi. change 0 with (inject_Z 0).
    rewrite <- Zle_Qle. lia. }
  assert (H1 : Qeq_bool i (inject_Z (Z.of_nat k)) = true)
    by (now apply Qeq_bool_iff).
  now rewrite H0, H1.
Qed.

Lemma selectSegment_selected
    (browser : Browser) (props : DefectViewerProps) (st : State)
    (segment : SegmentResult.t) :
  exists i : number,
    selectedSegment (selectSegment browser props st segment) = Some i /\
    i == SegmentResult.segment_index segment.
Proof.
  unfold selectSegment.
  destruct (selectedSegment st) as [current |] eqn:Hsel.
  - destruct (strict_eq current (SegmentResult.segment_index segment)) eqn:E.
    + exists current. split; [exact Hsel |]. now apply Qeq_bool_iff.
    + eexists. rewrite loadCroppedImages_cases.
      split; [| reflexivity].
      destruct (cropAndStoreDefect _ _ _ _ _); [| reflexivity].
      destruct (cropAndStoreDefect _ _ _ _ _); reflexivity.
  - eexists. rewrite loadCroppedImages_cases.
    split; [| reflexivity].
    destruct (cropAndStoreDefect _ _ _ _ _); [| reflexivity].
    destruct (cropAndStoreDefect _ _ _ _ _); reflexivity.
Qed.

End Selection.

(** After a click on a segment button the details panel shows the
    segment stored at the array position the clicked segment's
    [segment_index] names: the clicked segment itself when it sits at
    that position, another one (or none) otherwise. *)
Theorem selectSegment_shows_the_position_of_the_index
    (browser : ImageCropper.Browser) (props : DefectViewer.DefectViewerProps)
    (st : DefectViewer.State) (segment : SegmentResult.t) (k : nat) :
  SegmentResult.segment_index segment == inject_Z (Z.of_nat k) ->
  SegmentSelection.selectedSegmentData props
    (SegmentSelection.selectSegment browser props st segment)
  = nth_error (AnalysisResult.segments (DefectViewer.analysisResult props)) k.
Proof.
  intros Hk.
  destruct (selectSegment_selected browser props st segment) as (i & Hsel & Hi).
  unfold SegmentSelection.selectedSegmentData. rewrite Hsel.
  apply array_get_position. now rewrite Hi.
Qed.

Lemma selectSegment_shows_the_position_of_the_index_witness :
  let browser :=
    {| ImageCropper.loads := fun _ => true;
       ImageCropper.canvas := fun _ _ => ImageCropper.DataURL "data:image/png;base64,iVBOR" |} in
  let first := SegmentResult.mk 1 1 0 false 1 "NORMAL" in
  let second := SegmentResult.mk 0 (1 # 2) 40 true 1 "DEFECT" in
  let props :=
    {| DefectViewer.testImageUrl := "test/17.png";
       DefectViewer.masterImageUrl := "golden/board.png";
       DefectViewer.analysisResult :=
         AnalysisResult.mk [first; second] 1 20 1 "DEFECT" [0];
       DefectViewer.imageWidth := None; DefectViewer.imageHeight := None |} in
  let st := DefectViewer.mkState None "" "" false in
  SegmentSelection.selectedSegmentData props
    (SegmentSelection.selectSegment browser props st first)
  = Some second.
Proof.
  intros browser first second props st.
  apply (selectSegment_shows_the_position_of_the_index browser props st first 1).
  reflexivity.
Defined.

(** Clicking the button of the segment that is already selected changes
    nothing and loads no crop again: the state stays the one the first
    click left, whatever the browser would answer to a crop by then (the
    images may no longer load, or the canvas may give other data) and
    whatever props the viewer has by then. *)
Theorem selectSegment_twice
    (browser browser' : ImageCropper.Browser)
    (props props' : DefectViewer.DefectViewerProps)
    (st : DefectViewer.State) (segment : SegmentResult.t) :
  SegmentSelection.selectSegment browser' props'
    (SegmentSelection.selectSegment browser props st segment) segment
  = SegmentSelection.selectSegment browser props st segment.
Proof.
  destruct (selectSegment_selected browser props st segment) as (i & Hsel & Hi).
  unfold SegmentSelection.selectSegment at 1. rewrite Hsel.
  assert (E : strict_eq i (SegmentResult.segment_index segment) = true)
    by (now apply Qeq_bool_iff).
  now rewrite E.
Qed.

(** ** Swipes *)

Section Swipes.

Import SwipeCard.

Lemma Qabs_spec (a : Q) : (0 <= a /\ Qabs a == a) \/ (a < 0 /\ Qabs a == - a).
Proof.
  destruct (Qlt_le_dec a 0) as [Hneg | Hpos].
  - right. split; [exact Hneg |]. apply Qabs_neg. now apply Qlt_le_weak.
  - left. split; [exact Hpos |]. now apply Qabs_pos.
Qed.

Lemma gt_iff (a b : number) : Js.gt a b = true <-> b < a.
Proof.
  unfold Js.gt. rewrite negb_true_iff. split.
  - intros H. apply Qnot_le_lt. intros C. apply Qle_bool_iff in C. congruence.
  - intros H. apply not_true_is_false. intros C. apply Qle_bool_iff in C.
    apply (Qlt_not_le _ _ H C).
Qed.

Lemma gt_false_iff (a b : number) : Js.gt a b = false <-> a <= b.
Proof.
  unfold Js.gt. rewrite negb_false_iff. apply Qle_bool_iff.
Qed.

Lemma lt_iff (a b : number) : Js.lt a b = true <-> a < b.
Proof. apply gt_iff. Qed.

Lemma lt_false_iff (a b : number) : Js.lt a b = false <-> b <= a.
Proof. apply gt_false_iff. Qed.

Lemma last_cons {A : Type} (l : list A) (a d : A) :
  last (a :: l) d = last l a.
Proof.
  revert a d. induction l as [| b l IH]; intros a d; [reflexivity |].
  change (last (a :: b :: l) d) with (last (b :: l) d).
  now rewrite (IH b d), (IH b a).
Qed.

Lemma dragging_moves (moves : list (number * number)) (s : SwipeState) :
  isDragging s = true ->
  let s' := fold_left (fun s p => handleMouseMove s (fst p) (snd p)) moves s in
  isDragging s' = true /\ startX s' = startX s /\ startY s' = startY s /\
  currentX s' = last (map fst moves) (currentX s) /\
  currentY s' = last (map snd moves) (currentY s).
Proof.
  revert s. induction moves as [| p moves IH]; intros s Hs.
  - cbn. repeat split; assumption.
  - cbn [fold_left].
    assert (H1 : handleMouseMove s (fst p) (snd p)
                 = {| startX := startX s; startY := startY s;
                      currentX := fst p; currentY := snd p;
                      isDragging := true |})
      by (unfold handleMouseMove; now rewrite Hs).
    rewrite H1.
    destruct (IH {| startX := startX s; startY := startY s;
                    currentX := fst p; currentY := snd p;
                    isDragging := true |} eq_refl)
      as (Hd & Hx & Hy & Hcx & Hcy).
    cbn [isDragging startX startY currentX currentY] in Hx, Hy, Hcx, Hcy.
    cbv zeta. cbn [map]. rewrite !last_cons.
    repeat split; assumption.
Qed.

Lemma swipe_spec (deltaX deltaY : number) :
  (SwipeCard.swipe deltaX deltaY = Some SwipeCard.right <->
   2500 < deltaX * deltaX + deltaY * deltaY /\ Qabs deltaY < deltaX) /\
  (SwipeCard.swipe deltaX deltaY = Some SwipeCard.left <->
   2500 < deltaX * deltaX + deltaY * deltaY /\ Qabs deltaY < - deltaX) /\
  (SwipeCard.swipe deltaX deltaY = Some SwipeCard.up <->
   deltaY < -50 /\ Qabs deltaX <= - deltaY) /\
  (0 <= deltaY -> Qabs deltaX <= deltaY -> SwipeCard.swipe deltaX deltaY = None).
Proof.
  unfold SwipeCard.swipe, Js.Math_abs.
  destruct (Qabs_spec deltaX) as [[Hx Ex] | [Hx Ex]];
    destruct (Qabs_spec deltaY) as [[Hy Ey] | [Hy Ey]];
    destruct (Js.gt (deltaX * deltaX + deltaY * deltaY) 2500) eqn:Hd;
    destruct (Js.gt (Qabs deltaX) (Qabs deltaY)) eqn:Ha;
    destruct (Js.gt deltaX 0) eqn:Hp;
    destruct (Js.lt deltaY (-50)) eqn:Hu;
    rewrite ?gt_iff, ?gt_false_iff, ?lt_iff, ?lt_false_iff in *;
    repeat split; intros; try discriminate; try reflexivity;
    try lra; try (exfalso; nra).
Qed.

End Swipes.

(** The swipe read from the two deltas of a drag.  It is to the right
    exactly when the drag is longer than 50 and [deltaX] exceeds the
    size of [deltaY], to the left exactly when it is longer than 50 and
    [-deltaX] exceeds the size of [deltaY], and up exactly when [deltaY]
    is below -50 and at least as large in size as [deltaX]; for an upward
    swipe the length test is implied.  A drag that goes down at least as
    much as sideways is never a swipe. *)
Theorem swipe_cases (deltaX deltaY : number) :
  (SwipeCard.swipe deltaX deltaY = Some SwipeCard.right <->
   2500 < deltaX * deltaX + deltaY * deltaY /\ Qabs deltaY < deltaX) /\
  (SwipeCard.swipe deltaX deltaY = Some SwipeCard.left <->
   2500 < deltaX * deltaX + deltaY * deltaY /\ Qabs deltaY < - deltaX) /\
  (SwipeCard.swipe deltaX deltaY = Some SwipeCard.up <->
   deltaY < -50 /\ Qabs deltaX <= - deltaY) /\
  (0 <= deltaY -> Qabs deltaX <= deltaY -> SwipeCard.swipe deltaX deltaY = None).
Proof.
  exact (swipe_spec deltaX deltaY).
Qed.

Lemma swipe_cases_witness :
  SwipeCard.swipe 0 60 = None.
Proof.
  apply (proj2 (proj2 (proj2 (swipe_cases 0 60)))); discriminate.
Defined.

(** Of a drag with at least one move only the press point and the last
    pointer position count: the swipe is read from their difference, and
    after the release the card is at rest on the press point. *)
Theorem drag_reads_press_and_last_position
    (s : SwipeCard.SwipeState) (press last_position : number * number)
    (moves : list (number * number)) :
  SwipeCard.drag s press (moves ++ [last_position])
  = (SwipeCard.swipe (fst last_position - fst press) (snd last_position - snd press),
     {| SwipeCard.startX := fst press; SwipeCard.startY := snd press;
        SwipeCard.currentX := fst press; SwipeCard.currentY := snd press;
        SwipeCard.isDragging := false |}).
Proof.
  unfold SwipeCard.drag.
  destruct (dragging_moves (moves ++ [last_position])
              (SwipeCard.handleMouseDown s (fst press) (snd press)) eq_refl)
    as (Hd & Hx & Hy & Hcx & Hcy).
  rewrite map_app in Hcx, Hcy. cbn [map] in Hcx, Hcy.
  rewrite last_last in Hcx, Hcy.
  cbn [SwipeCard.handleMouseDown SwipeCard.startX SwipeCard.startY] in Hx, Hy.
  unfold SwipeCard.handleMouseUp.
  rewrite Hd, Hx, Hy, Hcx, Hcy. reflexivity.
Qed.

(** A press and release without any move is read against the position
    the pointer had at the end of the gesture before (the origin on a
    fresh card), not against the press point: pressing more than 50 to
    the right of that position, and less far from it vertically, is a
    swipe to the left. *)
Theorem still_click_is_a_swipe
    (s : SwipeCard.SwipeState) (clientX clientY : number) :
  50 < clientX - SwipeCard.currentX s ->
  Qabs (clientY - SwipeCard.currentY s) < clientX - SwipeCard.currentX s ->
  fst (SwipeCard.drag s (clientX, clientY) []) = Some SwipeCard.left.
Proof.
  intros Hfar Hflat.
  unfold SwipeCard.drag, SwipeCard.handleMouseUp, SwipeCard.handleMouseDown.
  cbn [fold_left fst snd SwipeCard.isDragging SwipeCard.startX SwipeCard.startY
       SwipeCard.currentX SwipeCard.currentY].
  apply (proj1 (proj2 (swipe_spec _ _))).
  rewrite Qabs_Qminus.
  destruct (Qabs_spec (clientY - SwipeCard.currentY s)) as [[Hy Ey] | [Hy Ey]];
    split; try lra; nra.
Qed.

Lemma still_click_is_a_swipe_witness :
  fst (SwipeCard.drag SwipeCard.initialSwipeState (400, 300) [])
  = Some SwipeCard.left.
Proof.
  apply (still_click_is_a_swipe SwipeCard.initialSwipeState 400 300);
    reflexivity.
Defined.

(** ** Recording a swipe *)

Section SwipeRecords.

Import Queue SwipeCard.

Lemma handleSwipe_inserts
    (table : list DefectRecord.t) (q : Queue.t) (direction : Direction)
    (img : TestImage.t) :
  currentImage q = Some img ->
  handleSwipe None table q direction
  = (table ++
       [{| DefectRecord.test_image_id := TestImage.id img;
           DefectRecord.user_decision := decision_string (decision_of direction);
           DefectRecord.swipe_direction := Some (direction_string direction);
           DefectRecord.confidence_override := None;
           DefectRecord.notes := None |}],
     set_feedback q ("Marked as " ++ decision_string (decision_of direction)),
     Some {| capturedIndex := currentIndex q;
             capturedLength := List.length (images q) |}).
Proof.
  intros Himg. unfold handleSwipe. rewrite Himg.
  destruct direction; reflexivity.
Qed.

Lemma has_next_iff (timer : Timer) :
  has_next timer = true <-> (capturedIndex timer + 1 < capturedLength timer)%nat.
Proof.
  unfold has_next. rewrite Z.ltb_lt. lia.
Qed.

Lemma handleSwipe_timer
    (fault : option string) (table table' : list DefectRecord.t)
    (q q' : Queue.t) (direction : Direction) (timer : Timer) :
  handleSwipe fault table q direction = (table', q', Some timer) ->
  capturedIndex timer = currentIndex q /\
  capturedLength timer = List.length (images q).
Proof.
  unfold handleSwipe.
  destruct (currentImage q); [| discriminate].
  destruct (Database.insert fault table _) as [t [e |]]; [discriminate |].
  intros E. injection E as _ _ <-. split; reflexivity.
Qed.

End SwipeRecords.

(** With a current image and no fault of the database, a swipe always
    stores one row for that image: the row [handleSwipe] builds passes
    the CHECK constraints of [defect_records], pairing right with accept,
    left with reject and up with review_later, so the insert cannot fail
    on the decision; the timer then left holds the index of this render. *)
Theorem handleSwipe_stores_a_valid_row
    (table : list DefectRecord.t) (q : Queue.t)
    (direction : SwipeCard.Direction) (img : TestImage.t) :
  Queue.currentImage q = Some img ->
  exists (row : DefectRecord.t) (q' : Queue.t) (timer : Queue.Timer),
    SwipeCard.handleSwipe None table q direction = (table ++ [row], q', Some timer) /\
    Database.defect_records_check row = true /\
    DefectRecord.test_image_id row = TestImage.id img /\
    In (DefectRecord.user_decision row, DefectRecord.swipe_direction row)
       [("accept", Some "right"); ("reject", Some "left");
        ("review_later", Some "up")]%string /\
    Queue.images q' = Queue.images q /\
    Queue.currentIndex q' = Queue.currentIndex q /\
    Queue.capturedIndex timer = Queue.currentIndex q.
Proof.
  intros Himg. do 3 eexists.
  split; [apply (handleSwipe_inserts table q direction img Himg) |].
  destruct direction; cbn; repeat split; auto.
Qed.

Lemma handleSwipe_stores_a_valid_row_witness :
  let img := TestImage.mk "t1" "g1" "test/1.png" "2025-12-19" true 0 None
               "2025-12-19" None in
  let q := Queue.mk [img] 0 false "" in
  exists (row : DefectRecord.t) (q' : Queue.t) (timer : Queue.Timer),
    SwipeCard.handleSwipe None [] q SwipeCard.up = ([] ++ [row], q', Some timer) /\
    Database.defect_records_check row = true /\
    DefectRecord.test_image_id row = "t1"%string /\
    In (DefectRecord.user_decision row, DefectRecord.swipe_direction row)
       [("accept", Some "right"); ("reject", Some "left");
        ("review_later", Some "up")]%string /\
    Queue.images q' = Queue.images q /\
    Queue.currentIndex q' = Queue.currentIndex q /\
    Queue.capturedIndex timer = Queue.currentIndex q.
Proof.
  intros img q.
  apply (handleSwipe_stores_a_valid_row [] q SwipeCard.up img). reflexivity.
Defined.

(** The timer of a swipe keeps the current index inside the queue, on
    whatever later state of a queue of the same length it fires: it moves
    to the image after the one swiped when there is one, and otherwise
    leaves the index alone, so the last image stays current after its
    decision. *)
Theorem swipe_timer_keeps_the_index_in_range
    (fault : option string) (table table' : list DefectRecord.t)
    (q q' later : Queue.t) (direction : SwipeCard.Direction)
    (timer : Queue.Timer) :
  SwipeCard.handleSwipe fault table q direction = (table', q', Some timer) ->
  List.length (Queue.images later) = List.length (Queue.images q) ->
  Queue.in_range later ->
  Queue.in_range (SwipeCard.timeout timer later) /\
  Queue.images (SwipeCard.timeout timer later) = Queue.images later /\
  ((Queue.currentIndex q + 1 < List.length (Queue.images q))%nat ->
   Queue.currentIndex (SwipeCard.timeout timer later)
   = (Queue.currentIndex q + 1)%nat) /\
  ((Queue.currentIndex q + 1 >= List.length (Queue.images q))%nat ->
   Queue.currentIndex (SwipeCard.timeout timer later) = Queue.currentIndex later).
Proof.
  intros Hswipe Hlen Hlater.
  destruct (handleSwipe_timer _ _ _ _ _ _ _ Hswipe) as [Hi Hl].
  unfold SwipeCard.timeout, Queue.in_range in *.
  destruct (Queue.has_next timer) eqn:Hnext.
  - apply has_next_iff in Hnext. rewrite Hi, Hl in Hnext.
    cbn [SwipeCard.set_currentIndex Queue.currentIndex Queue.images].
    rewrite Hi. repeat split; try lia.
  - assert (Hlast : ~ (Queue.capturedIndex timer + 1 < Queue.capturedLength timer)%nat).
    { intros C. apply has_next_iff in C. congruence. }
    rewrite Hi, Hl in Hlast.
    cbn [SwipeCard.set_feedback Queue.currentIndex Queue.images].
    repeat split; try lia; try assumption.
Qed.

Lemma swipe_timer_keeps_the_index_in_range_witness :
  let img i := TestImage.mk i "g1" "test/1.png" "2025-12-19" true 0 None
                 "2025-12-19" None in
  let q := Queue.mk [img "t1"; img "t2"]%string 1 false "" in
  exists timer : Queue.Timer,
    snd (SwipeCard.handleSwipe None [] q SwipeCard.right) = Some timer /\
    Queue.currentIndex (SwipeCard.timeout timer q) = 1%nat.
Proof.
  intros img q. eexists. split; [reflexivity |].
  refine (proj2 (proj2 (proj2
    (swipe_timer_keeps_the_index_in_range None [] _ q _ q SwipeCard.right _
       eq_refl eq_refl _))) _).
  - unfold Queue.in_range. cbn. lia.
  - cbn. lia.
Defined.

(** Two swipes made before the timer of the first has fired are both
    stored against the same image, and when the two timers have fired
    the queue has advanced by one image at most. *)
Theorem two_swipes_before_the_timer
    (table : list DefectRecord.t) (q : Queue.t)
    (first second : SwipeCard.Direction) (img : TestImage.t) :
  Queue.currentImage q = Some img ->
  exists (r1 r2 : DefectRecord.t) (q1 q2 : Queue.t) (t1 t2 : Queue.Timer),
    SwipeCard.handleSwipe None table q first = (table ++ [r1], q1, Some t1) /\
    SwipeCard.handleSwipe None (table ++ [r1]) q1 second
    = ((table ++ [r1]) ++ [r2], q2, Some t2) /\
    DefectRecord.test_image_id r1 = TestImage.id img /\
    DefectRecord.test_image_id r2 = TestImage.id img /\
    Queue.currentIndex (SwipeCard.timeout t2 (SwipeCard.timeout t1 q2))
    = Queue.currentIndex (SwipeCard.timeout t1 q2) /\
    (Queue.currentIndex (SwipeCard.timeout t1 q2) <= Queue.currentIndex q + 1)%nat.
Proof.
  intros Himg. do 6 eexists.
  split; [apply (handleSwipe_inserts table q first img Himg) |].
  split; [apply (handleSwipe_inserts _ _ second img); exact Himg |].
  split; [reflexivity |]. split; [reflexivity |].
  unfold SwipeCard.timeout, Queue.has_next.
  cbn [Queue.capturedIndex Queue.capturedLength SwipeCard.set_feedback
       SwipeCard.set_currentIndex Queue.currentIndex Queue.images].
  destruct (Z.of_nat (Queue.currentIndex q)
            <? Z.of_nat (List.length (Queue.images q)) - 1)%Z;
    cbn [SwipeCard.set_feedback SwipeCard.set_currentIndex
         Queue.currentIndex Queue.images];
    split; lia.
Qed.

Lemma two_swipes_before_the_timer_witness :
  let img i := TestImage.mk i "g1" "test/1.png" "2025-12-19" true 0 None
                 "2025-12-19" None in
  let q := Queue.mk [img "t1"; img "t2"; img "t3"]%string 0 false "" in
  exists (r1 r2 : DefectRecord.t) (q1 q2 : Queue.t) (t1 t2 : Queue.Timer),
    SwipeCard.handleSwipe None [] q SwipeCard.left = ([] ++ [r1], q1, Some t1) /\
    SwipeCard.handleSwipe None ([] ++ [r1]) q1 SwipeCard.right
    = (([] ++ [r1]) ++ [r2], q2, Some t2) /\
    DefectRecord.test_image_id r1 = "t1"%string /\
    DefectRecord.test_image_id r2 = "t1"%string /\
    Queue.currentIndex (SwipeCard.timeout t2 (SwipeCard.timeout t1 q2))
    = Queue.currentIndex (SwipeCard.timeout t1 q2) /\
    (Queue.currentIndex (SwipeCard.timeout t1 q2) <= Queue.currentIndex q + 1)%nat.
Proof.
  intros img q.
  apply (two_swipes_before_the_timer [] q SwipeCard.left SwipeCard.right (img "t1"%string)).
  reflexivity.
Defined.

(** ** Loading the queue *)

Section PendingImages.

Import Database Queue.

Lemma has_iff (imageIds : list string) (id : string) :
  has imageIds id = true <-> In id imageIds.
Proof.
  unfold has. rewrite existsb_exists. split.
  - intros (i & Hin & E). apply String.eqb_eq in E. now subst.
  - intros Hin. exists id. split; [exact Hin | apply String.eqb_refl].
Qed.

Lemma filter_all {A : Type} (l : list A) : filter (fun _ => true) l = l.
Proof.
  induction l as [| a l IH]; cbn [filter]; [reflexivity | now rewrite IH].
Qed.

End PendingImages.

(** When the query for the test images succeeds, the queue becomes the
    fetched images that have no row in [defect_records]: an image is
    queued exactly when it was fetched and its id is not among the
    [test_image_id]s; the card starts again on the first of them. *)
Theorem loadPendingImages_queues_the_unreviewed
    (test_images : Database.Response (list TestImage.t))
    (defect_records : Database.Response (list DefectRecord.t)) (q : Queue.t) :
  Database.error test_images = None ->
  let q' := Queue.loadPendingImages test_images defect_records q in
  let fetched := match Database.data test_images with Some l => l | None => [] end in
  let rows := match Database.data defect_records with Some l => l | None => [] end in
  (forall img : TestImage.t,
     In img (Queue.images q') <->
     In img fetched /\ ~ In (TestImage.id img) (map DefectRecord.test_image_id rows)) /\
  Queue.currentIndex q' = 0%nat /\
  Queue.loading q' = false /\
  (Queue.images q' = [] \/ Queue.in_range q').
Proof.
  intros Herr q' fetched rows. subst q' fetched rows.
  unfold Queue.loadPendingImages. rewrite Herr.
  cbn [Queue.images Queue.currentIndex Queue.loading].
  split; [| split; [reflexivity | split; [reflexivity |]]].
  - intros img. rewrite filter_In, negb_true_iff.
    destruct (Database.data defect_records) as [rows |]; cbn [map].
    + rewrite <- has_iff. destruct (Queue.has _ _); intuition congruence.
    + cbn. intuition.
  - unfold Queue.in_range. cbn [Queue.images Queue.currentIndex].
    destruct (filter _ _); [left; reflexivity | right; cbn; lia].
Qed.

Lemma loadPendingImages_queues_the_unreviewed_witness :
  let img i := TestImage.mk i "g1" "test/1.png" "2025-12-19" true 0 None
                 "2025-12-19" None in
  let row i := DefectRecord.mk i "accept" None None None in
  let q' :=
    Queue.loadPendingImages
      (Database.mkResponse (Some [img "t1"; img "t2"; img "t3"]%string) None)
      (Database.mkResponse (Some [row "t2"%string]) None)
      (Queue.mk [] 5 true "") in
  In (img "t3"%string) (Queue.images q') /\ ~ In (img "t2"%string) (Queue.images q').
Proof.
  intros img row q'.
  destruct (loadPendingImages_queues_the_unreviewed
              (Database.mkResponse (Some [img "t1"; img "t2"; img "t3"]%string) None)
              (Database.mkResponse (Some [row "t2"%string]) None)
              (Queue.mk [] 5 true "") eq_refl) as (Hin & _).
  split.
  - apply Hin. cbn. split; [tauto |]. intros [E | []]. discriminate E.
  - intros C. apply Hin in C. apply (proj2 C). cbn. left. reflexivity.
Defined.

(** The two ways [loadPendingImages] goes wrong.  An error of the first
    query leaves the queue and the index untouched and reports
    "Failed to load images".  The second query is never checked for an
    error: when it brings no data every fetched image is queued, the
    reviewed ones too. *)
Theorem loadPendingImages_failures
    (test_images : Database.Response (list TestImage.t))
    (defect_records : Database.Response (list DefectRecord.t)) (q : Queue.t) :
  let q' := Queue.loadPendingImages test_images defect_records q in
  (Database.error test_images <> None ->
   Queue.images q' = Queue.images q /\
   Queue.currentIndex q' = Queue.currentIndex q /\
   Queue.loading q' = false /\
   Queue.feedback q' = "Failed to load images"%string) /\
  (Database.error test_images = None ->
   Database.data defect_records = None ->
   Queue.images q'
   = match Database.data test_images with Some l => l | None => [] end).
Proof.
  intros q'. subst q'. unfold Queue.loadPendingImages. split.
  - intros Herr. destruct (Database.error test_images); [| congruence].
    repeat split.
  - intros Herr Hdata. rewrite Herr, Hdata. cbn [Queue.images map].
    apply filter_all.
Qed.

Lemma loadPendingImages_failures_witness :
  let img i := TestImage.mk i "g1" "test/1.png" "2025-12-19" true 0 None
                 "2025-12-19" None in
  Queue.images
    (Queue.loadPendingImages
       (Database.mkResponse (Some [img "t1"; img "t2"]%string) None)
       (Database.mkResponse None (Some "timeout"%string))
       (Queue.mk [] 0 true ""))
  = [img "t1"; img "t2"]%string.
Proof.
  intros img.
  apply (proj2 (loadPendingImages_failures
                  (Database.mkResponse (Some [img "t1"; img "t2"]%string) None)
                  (Database.mkResponse None (Some "timeout"%string))
                  (Queue.mk [] 0 true ""))); reflexivity.
Defined.

(** ** Decisions with notes, and navigation *)

Section Review.

Import Queue ReviewCard.

Lemma handleDecision_cases
    (trim : string -> string) (fault : option string)
    (table : list DefectRecord.t) (st : State) (decision : SwipeCard.Decision) :
  (exists img, currentImage (queue st) = Some img /\ processing st = false /\
     fault = None /\
     let trimmed := trim (notes st) in
     let row :=
       {| DefectRecord.test_image_id := TestImage.id img;
          DefectRecord.user_decision := SwipeCard.decision_string decision;
          DefectRecord.swipe_direction := None;
          DefectRecord.confidence_override := None;
          DefectRecord.notes :=
            if String.eqb trimmed "" then None else Some trimmed |} in
     exists q' timer,
       handleDecision trim fault table st decision
       = (table ++ [row], {| queue := q'; notes := ""; processing := false |},
          Some timer) /\
       images q' = images (queue st) /\
       currentIndex q' = currentIndex (queue st)) \/
  (exists st', handleDecision trim fault table st decision = (table, st', None) /\
     images (queue st') = images (queue st) /\
     currentIndex (queue st') = currentIndex (queue st) /\
     notes st' = notes st).
Proof.
  unfold handleDecision.
  destruct (currentImage (queue st)) as [img |];
    [| right; eexists; repeat split].
  destruct (processing st); [right; eexists; repeat split |].
  destruct fault as [e |].
  - right. eexists. cbn [Database.insert]. repeat split.
  - left. exists img. repeat split. cbv zeta.
    destruct decision; cbn; do 2 eexists; repeat split.
Qed.

End Review.

(** [handleDecision] stores at most one row, and only when an image is
    current and no decision is being processed.  The row it stores passes
    the CHECK constraints of [defect_records], names the current image,
    has no swipe direction, and its notes are NULL or a non-empty text,
    never the empty text; the notes box is then cleared.  In every other
    case the table and the notes stay as they were.  The index never
    moves before the timer fires. *)
Theorem handleDecision_stores_at_most_one_valid_row
    (trim : string -> string) (fault : option string)
    (table table' : list DefectRecord.t) (st st' : ReviewCard.State)
    (decision : SwipeCard.Decision) (timer : option Queue.Timer) :
  ReviewCard.handleDecision trim fault table st decision = (table', st', timer) ->
  Queue.images (ReviewCard.queue st') = Queue.images (ReviewCard.queue st) /\
  Queue.currentIndex (ReviewCard.queue st')
  = Queue.currentIndex (ReviewCard.queue st) /\
  ((table' = table /\ timer = None /\ ReviewCard.notes st' = ReviewCard.notes st) \/
   (exists (row : DefectRecord.t) (img : TestImage.t),
      table' = table ++ [row] /\
      Queue.currentImage (ReviewCard.queue st) = Some img /\
      ReviewCard.processing st = false /\
      DefectRecord.test_image_id row = TestImage.id img /\
      Database.defect_records_check row = true /\
      DefectRecord.swipe_direction row = None /\
      DefectRecord.notes row <> Some ""%string /\
      ReviewCard.notes st' = ""%string /\
      ReviewCard.processing st' = false /\
      timer <> None)).
Proof.
  intros H.
  destruct (handleDecision_cases trim fault table st decision)
    as [(img & Himg & Hproc & _ & q' & t & E & Hi & Hc) | (s & E & Hi & Hc & Hn)];
    rewrite E in H; injection H as <- <- <-.
  - cbn [ReviewCard.queue ReviewCard.notes ReviewCard.processing].
    split; [exact Hi |]. split; [exact Hc |]. right.
    eexists. exists img. split; [reflexivity |].
    cbn [DefectRecord.test_image_id DefectRecord.swipe_direction DefectRecord.notes].
    repeat split; try assumption; try discriminate.
    + destruct decision; reflexivity.
    + destruct (String.eqb_spec (trim (ReviewCard.notes st)) "") as [_ | Hne];
        [discriminate | congruence].
  - split; [exact Hi |]. split; [exact Hc |]. left. repeat split. exact Hn.
Qed.

Lemma handleDecision_stores_at_most_one_valid_row_witness :
  let img := TestImage.mk "t1" "g1" "test/1.png" "2025-12-19" true 0 None
               "2025-12-19" None in
  let st := ReviewCard.mkState (Queue.mk [img] 0 false "") "" false in
  let trim := fun notes : string => notes in
  let result := ReviewCard.handleDecision trim None [] st SwipeCard.reject in
  exists row, fst (fst result) = [row] /\ DefectRecord.notes row = None.
Proof.
  intros img st trim result.
  destruct (handleDecision_stores_at_most_one_valid_row trim None []
              (fst (fst result)) st (snd (fst result)) SwipeCard.reject
              (snd result) eq_refl) as (_ & _ & [(_ & Ht & _) | Hrow]).
  - discriminate Ht.
  - eexists. split; reflexivity.
Defined.

(** [navigateImage] keeps the index inside the queue and never touches
    the images; going to the next image and back, or to the previous one
    and forth, returns to the same queue state; at either end of the
    queue the step in that direction does nothing, the notes included. *)
Theorem navigateImage_stays_in_range_and_returns (st : ReviewCard.State) :
  Queue.in_range (ReviewCard.queue st) ->
  (forall direction : ReviewCard.NavDirection,
     Queue.in_range (ReviewCard.queue (ReviewCard.navigateImage st direction)) /\
     Queue.images (ReviewCard.queue (ReviewCard.navigateImage st direction))
     = Queue.images (ReviewCard.queue st)) /\
  ((Queue.currentIndex (ReviewCard.queue st) + 1
    < List.length (Queue.images (ReviewCard.queue st)))%nat ->
   ReviewCard.queue
     (ReviewCard.navigateImage
        (ReviewCard.navigateImage st ReviewCard.next) ReviewCard.prev)
   = ReviewCard.queue st) /\
  ((0 < Queue.currentIndex (ReviewCard.queue st))%nat ->
   ReviewCard.queue
     (ReviewCard.navigateImage
        (ReviewCard.navigateImage st ReviewCard.prev) ReviewCard.next)
   = ReviewCard.queue st) /\
  (Queue.currentIndex (ReviewCard.queue st) = 0%nat ->
   ReviewCard.navigateImage st ReviewCard.prev = st) /\
  ((Queue.currentIndex (ReviewCard.queue st) + 1
    = List.length (Queue.images (ReviewCard.queue st)))%nat ->
   ReviewCard.navigateImage st ReviewCard.next = st).
Proof.
  destruct st as [[images index loading feedback] notes processing].
  unfold Queue.in_range, ReviewCard.navigateImage.
  cbn [ReviewCard.queue Queue.currentIndex Queue.images ReviewCard.notes
       ReviewCard.processing].
  intros Hrange. repeat split.
  - destruct direction.
    + destruct (Nat.ltb_spec 0 index); cbn; lia.
    + destruct (Z.ltb_spec (Z.of_nat index) (Z.of_nat (List.length images) - 1));
        cbn; lia.
  - destruct direction.
    + destruct (Nat.ltb_spec 0 index); reflexivity.
    + destruct (Z.ltb_spec (Z.of_nat index) (Z.of_nat (List.length images) - 1));
        reflexivity.
  - intros Hnext.
    destruct (Z.ltb_spec (Z.of_nat index) (Z.of_nat (List.length images) - 1));
      [| lia].
    cbn [ReviewCard.queue SwipeCard.set_currentIndex Queue.currentIndex
         Queue.images Queue.loading Queue.feedback].
    destruct (Nat.ltb_spec 0 (index + 1)); [| lia].
    unfold SwipeCard.set_currentIndex.
    cbn [ReviewCard.queue Queue.currentIndex Queue.images Queue.loading
         Queue.feedback].
    f_equal. lia.
  - intros Hprev.
    destruct (Nat.ltb_spec 0 index); [| lia].
    cbn [ReviewCard.queue SwipeCard.set_currentIndex Queue.currentIndex
         Queue.images Queue.loading Queue.feedback].
    destruct (Z.ltb_spec (Z.of_nat (index - 1)) (Z.of_nat (List.length images) - 1));
      [| lia].
    unfold SwipeCard.set_currentIndex.
    cbn [ReviewCard.queue Queue.currentIndex Queue.images Queue.loading
         Queue.feedback].
    f_equal. lia.
  - intros ->. reflexivity.
  - intros Hlast.
    destruct (Z.ltb_spec (Z.of_nat index) (Z.of_nat (List.length images) - 1));
      [lia | reflexivity].
Qed.

Lemma navigateImage_stays_in_range_and_returns_witness :
  let img i := TestImage.mk i "g1" "test/1.png" "2025-12-19" true 0 None
                 "2025-12-19" None in
  let st := ReviewCard.mkState
              (Queue.mk [img "t1"; img "t2"; img "t3"]%string 1 false "") "scratch" false in
  ReviewCard.queue
    (ReviewCard.navigateImage
       (ReviewCard.navigateImage st ReviewCard.next) ReviewCard.prev)
  = ReviewCard.queue st.
Proof.
  intros img st.
  assert (Hrange : Queue.in_range (ReviewCard.queue st))
    by (unfold Queue.in_range; cbn; lia).
  apply (proj1 (proj2 (navigateImage_stays_in_range_and_returns st Hrange))).
  cbn. lia.
Defined.

(** ** The dashboard *)

Section DashboardCounts.

Import Database Dashboard.

Let is_decision (decision : string) (r : DefectRecord.t) : bool :=
  String.eqb (DefectRecord.user_decision r) decision.

Lemma decisions_partition (records : list DefectRecord.t) :
  (List.length (filter (is_decision "accept") records) +
   List.length (filter (is_decision "reject") records) +
   List.length (filter (is_decision "review_later") records)
   <= List.length records)%nat /\
  (Forall (fun r => defect_records_check r = true) records ->
   (List.length (filter (is_decision "accept") records) +
    List.length (filter (is_decision "reject") records) +
    List.length (filter (is_decision "review_later") records)
    = List.length records)%nat).
Proof.
  induction records as [| r records [IHle IHeq]].
  - split; [cbn; lia | reflexivity].
  - cbn [filter].
    destruct (is_decision "accept" r) eqn:Ea;
      destruct (is_decision "reject" r) eqn:Er;
      destruct (is_decision "review_later" r) eqn:El;
      unfold is_decision in Ea, Er, El;
      try (apply String.eqb_eq in Ea; rewrite Ea in *; discriminate);
      try (apply String.eqb_eq in Er; rewrite Er in *; discriminate);
      cbn [List.length]; (split; [lia |]); intros Hall;
      inversion Hall as [| ? ? Hr Hrest]; subst;
      try (specialize (IHeq Hrest); lia).
    exfalso. unfold defect_records_check, one_of in Hr. cbn [existsb] in Hr.
    rewrite Ea, Er, El in Hr. discriminate Hr.
Qed.

Lemma rate_bounds (a t : Q) :
  0 <= a -> a <= t -> 0 < t -> 0 <= a / t * 100 /\ a / t * 100 <= 100.
Proof.
  intros Ha Hat Ht.
  assert (H0 : 0 <= a / t) by (apply Qle_shift_div_l; [exact Ht | lra]).
  assert (H1 : a / t <= 1) by (apply Qle_shift_div_r; [exact Ht | lra]).
  set (k := a / t) in *. split; lra.
Qed.

Lemma size_nonneg {A : Type} (l : list A) : 0 <= size l.
Proof.
  unfold size. change 0 with (inject_Z 0). rewrite <- Zle_Qle. lia.
Qed.

Lemma size_le {A B : Type} (l : list A) (m : list B) :
  (List.length l <= List.length m)%nat -> size l <= size m.
Proof.
  intros H. unfold size. rewrite <- Zle_Qle. lia.
Qed.

Lemma maxValue_bounds (values : list number) :
  1 <= fold_right Qmax 1 values /\
  forall v, In v values -> v <= fold_right Qmax 1 values.
Proof.
  induction values as [| w values [IH1 IHv]]; cbn [fold_right].
  - split; [apply Qle_refl | intros v []].
  - split.
    + eapply Qle_trans; [exact IH1 | apply Q.le_max_r].
    + intros v [<- | Hv].
      * apply Q.le_max_l.
      * eapply Qle_trans; [apply (IHv v Hv) | apply Q.le_max_r].
Qed.

End DashboardCounts.

(** When the query brings records, the total is their number; the three
    counts never add up to more than the total, and add up to exactly the
    total when every record satisfies the CHECK constraint on
    [user_decision]; the acceptance rate is the accepted share of the
    total in percent and lies between 0 and 100. *)
Theorem loadStats_counts
    (response : Database.Response (list DefectRecord.t)) (st : Dashboard.State)
    (records : list DefectRecord.t) :
  Database.error response = None ->
  Database.data response = Some records ->
  records <> [] ->
  let s := Dashboard.stats (Dashboard.loadStats response st) in
  Dashboard.totalReviewed s == size records /\
  Dashboard.accepted s + Dashboard.rejected s + Dashboard.reviewLater s
  <= Dashboard.totalReviewed s /\
  (Forall (fun r => Database.defect_records_check r = true) records ->
   Dashboard.accepted s + Dashboard.rejected s + Dashboard.reviewLater s
   == Dashboard.totalReviewed s) /\
  0 <= Dashboard.acceptanceRate s /\ Dashboard.acceptanceRate s <= 100 /\
  Dashboard.acceptanceRate s * Dashboard.totalReviewed s
  == Dashboard.accepted s * 100.
Proof.
  intros Herr Hdata Hne s. subst s.
  unfold Dashboard.loadStats. rewrite Herr, Hdata.
  destruct records as [| r records]; [congruence |].
  cbn [Dashboard.stats Dashboard.totalReviewed Dashboard.accepted
       Dashboard.rejected Dashboard.reviewLater Dashboard.acceptanceRate].
  set (all := r :: records).
  assert (Hpos : 0 < size all).
  { unfold size, all. change 0 with (inject_Z 0). rewrite <- Zlt_Qlt.
    cbn [List.length]. lia. }
  assert (Hgt : Js.gt (size all) 0 = true) by (now apply gt_iff).
  rewrite Hgt.
  destruct (decisions_partition all) as [Hle Heq]. cbv zeta in Hle, Heq.
  unfold Dashboard.count.
  split; [reflexivity |]. split; [| split; [| split; [| split]]].
  - unfold size. rewrite <- !inject_Z_plus, <- Zle_Qle. lia.
  - intros Hall. specialize (Heq Hall).
    unfold size. rewrite <- !inject_Z_plus. rewrite <- Heq.
    now rewrite !Nat2Z.inj_add.
  - apply rate_bounds; [apply size_nonneg | | exact Hpos].
    apply size_le. apply filter_length_le.
  - apply rate_bounds; [apply size_nonneg | | exact Hpos].
    apply size_le. apply filter_length_le.
  - field. intros C. rewrite C in Hpos. discriminate Hpos.
Qed.

Lemma loadStats_counts_witness :
  let row d := DefectRecord.mk "t1" d None None None in
  let records := [row "accept"; row "reject"; row "accept"; row "review_later"]%string in
  let s := Dashboard.stats
             (Dashboard.loadStats (Database.mkResponse (Some records) None)
                Dashboard.initialState) in
  Dashboard.totalReviewed s == 4 /\ Dashboard.acceptanceRate s <= 100.
Proof.
  intros row records s.
  assert (Hne : records <> []) by discriminate.
  destruct (loadStats_counts (Database.mkResponse (Some records) None)
              Dashboard.initialState records eq_refl eq_refl Hne)
    as (Ht & _ & _ & _ & Hr & _).
  split; [exact Ht | exact Hr].
Defined.

(** A reload that fails, or that finds no record at all, changes
    neither the statistics nor the chart: the dashboard goes on showing
    what it showed before; only [loading] ends. *)
Theorem loadStats_without_records
    (response : Database.Response (list DefectRecord.t)) (st : Dashboard.State) :
  Database.error response <> None \/ Database.data response = None \/
  Database.data response = Some [] ->
  Dashboard.stats (Dashboard.loadStats response st) = Dashboard.stats st /\
  Dashboard.chartData (Dashboard.loadStats response st) = Dashboard.chartData st /\
  Dashboard.loading (Dashboard.loadStats response st) = false.
Proof.
  unfold Dashboard.loadStats.
  intros [Herr | [Hdata | Hdata]].
  - destruct (Database.error response); [| congruence].
    repeat split.
  - rewrite Hdata. destruct (Database.error response); repeat split.
  - rewrite Hdata. destruct (Database.error response); repeat split.
Qed.

Lemma loadStats_without_records_witness :
  let row d := DefectRecord.mk "t1" d None None None in
  let shown :=
    Dashboard.loadStats (Database.mkResponse (Some [row "accept"%string]) None)
      Dashboard.initialState in
  Dashboard.stats (Dashboard.loadStats (Database.mkResponse (Some []) None) shown)
  = Dashboard.stats shown.
Proof.
  intros row shown.
  apply (loadStats_without_records (Database.mkResponse (Some []) None) shown).
  right. right. reflexivity.
Defined.

(** The bars of the chart fit their container: the largest value the
    widths are divided by is at least 1, so nothing is divided by zero,
    and as long as the chart held no negative value before the load every
    bar is between 0 and 100 percent wide after it. *)
Theorem bars_fit_the_chart
    (response : Database.Response (list DefectRecord.t)) (st : Dashboard.State) :
  (forall item, In item (Dashboard.chartData st) -> 0 <= snd item) ->
  let st' := Dashboard.loadStats response st in
  1 <= Dashboard.maxValue st' /\
  forall item, In item (Dashboard.chartData st') ->
    0 <= Dashboard.barWidth st' item /\ Dashboard.barWidth st' item <= 100.
Proof.
  intros Hst st'.
  destruct (maxValue_bounds (map snd (Dashboard.chartData st'))) as [H1 Hmax].
  fold (Dashboard.maxValue st') in H1, Hmax.
  split; [exact H1 |].
  assert (Hnonneg : forall item, In item (Dashboard.chartData st') -> 0 <= snd item).
  { subst st'. unfold Dashboard.loadStats.
    destruct (Database.error response); [exact Hst |].
    destruct (Database.data response) as [[| r records] |];
      [exact Hst | | exact Hst].
    cbn [Dashboard.chartData]. unfold Dashboard.count.
    intros item [<- | [<- | [<- | []]]]; apply size_nonneg. }
  intros item Hitem. unfold Dashboard.barWidth.
  apply rate_bounds.
  - now apply Hnonneg.
  - apply Hmax. now apply in_map.
  - lra.
Qed.

Lemma bars_fit_the_chart_witness :
  let row d := DefectRecord.mk "t1" d None None None in
  let st' :=
    Dashboard.loadStats
      (Database.mkResponse (Some [row "accept"; row "reject"; row "accept"]%string) None)
      Dashboard.initialState in
  Dashboard.barWidth st' ("Rejected"%string, 1) <= 100.
Proof.
  intros row st'.
  refine (proj2 (proj2 (bars_fit_the_chart
    (Database.mkResponse (Some [row "accept"; row "reject"; row "accept"]%string) None)
    Dashboard.initialState _) ("Rejected"%string, 1) _)).
  - intros item [].
  - right. left. reflexivity.
Defined.

(** ** When the viewer opens *)

(** The inspection card renders the defect viewer only when it is not
    loading, the viewer was asked for, and the image at the current index
    has both an analysis and a golden image; the viewer then gets the
    path of that test image, the path of its golden image and that
    analysis, and nothing else. *)
Theorem defectViewer_opens_on_the_current_image
    (st : InspectionCard.State) (props : DefectViewer.DefectViewerProps) :
  InspectionCard.defectViewer st = Some props <->
  InspectionCard.loading st = false /\
  InspectionCard.showDefectViewer st = true /\
  exists (img : TestImage.t) (golden : GoldenImage.t),
    nth_error (InspectionCard.images st) (InspectionCard.currentIndex st) = Some img /\
    TestImage.golden_image img = Some golden /\
    TestImage.detected_defects img
    = Some (DefectViewer.analysisResult props) /\
    props = {| DefectViewer.testImageUrl := TestImage.image_path img;
               DefectViewer.masterImageUrl := GoldenImage.image_path golden;
               DefectViewer.analysisResult := DefectViewer.analysisResult props;
               DefectViewer.imageWidth := None;
               DefectViewer.imageHeight := None |}.
Proof.
  unfold InspectionCard.defectViewer, InspectionCard.currentImage. split.
  - destruct (InspectionCard.loading st); [discriminate |].
    destruct (InspectionCard.images st) as [| first rest] eqn:Himages;
      [discriminate |].
    destruct (nth_error (first :: rest) (InspectionCard.currentIndex st))
      as [img |]; [| discriminate].
    destruct (InspectionCard.showDefectViewer st); [| discriminate].
    destruct (TestImage.detected_defects img) as [analysis |] eqn:Ha;
      [| discriminate].
    destruct (TestImage.golden_image img) as [golden |] eqn:Hg; [| discriminate].
    intros E. injection E as <-. cbn [DefectViewer.analysisResult].
    repeat split. exists img, golden. repeat split; assumption.
  - intros (-> & -> & img & golden & Himg & Hg & Ha & Hprops).
    destruct (InspectionCard.images st) as [| first rest].
    + destruct (InspectionCard.currentIndex st); discriminate Himg.
    + rewrite Himg, Ha, Hg. now rewrite Hprops.
Qed.
